(** * DeepSeek / OpenAI-compatible content generator

    A shallow embedding of
    [packages/core/src/core/deepseekContentGenerator.ts]: the provider
    resolver, the request translator and the streaming reconstruction
    engine, followed by the properties the specification states about them.

    Conventions of the embedding.
    - JavaScript strings are [string]s whose characters are read as code
      units below 256.
    - [undefined] and [null] are both [None]; every use in the source is a
      truthiness test, [?.], [??] or [typeof], which do not tell them apart,
      except where noted.
    - JavaScript numbers are binary64 [float]s; the stream position [index]
      of a tool-call delta is an integer and is a [Z].
    - [JSON.parse], [JSON.stringify], [Number] and [Math.random] belong to
      the platform; they are parameters of the sections that use them. *)

From Stdlib Require Import PrimFloat Ascii String ZArith NArith.
From stdpp Require Import base option strings list gmap sorting pretty.

Set Warnings "-register-all".

Local Open Scope string_scope.
Local Open Scope list_scope.

(** ** JavaScript string primitives *)

Module Js.

(** [a || b] on strings: the empty string and [undefined] are falsy. *)
Definition truthy (o : option string) : bool :=
  match o with
  | Some s => negb (String.eqb s "")
  | None => false
  end.

Definition or_else (a : option string) (b : string) : string :=
  if truthy a then default "" a else b.

Definition code (c : ascii) : N := N_of_ascii c.

Definition toLowerCase_char (c : ascii) : ascii :=
  let n := code c in
  if ((65 <=? n) && (n <=? 90))%N
     || ((192 <=? n) && (n <=? 222) && negb (n =? 215))%N
  then ascii_of_N (n + 32)
  else c.

Fixpoint toLowerCase (s : string) : string :=
  match s with
  | EmptyString => EmptyString
  | String c r => String (toLowerCase_char c) (toLowerCase r)
  end.

(** White space and line terminators removed by [String.prototype.trim]:
    TAB, LF, VT, FF, CR, SP and NBSP. *)
Definition is_white (c : ascii) : bool :=
  let n := code c in
  ((9 <=? n) && (n <=? 13) || (n =? 32) || (n =? 160))%N.

Fixpoint trimStart (s : string) : string :=
  match s with
  | String c r => if is_white c then trimStart r else s
  | EmptyString => EmptyString
  end.

Fixpoint all_white (s : string) : bool :=
  match s with
  | EmptyString => true
  | String c r => is_white c && all_white r
  end.

Fixpoint trimEnd (s : string) : string :=
  match s with
  | EmptyString => EmptyString
  | String c r => if all_white s then EmptyString else String c (trimEnd r)
  end.

Definition trim (s : string) : string := trimEnd (trimStart s).

Fixpoint startsWith (s p : string) : bool :=
  match p, s with
  | EmptyString, _ => true
  | String a p', String b s' => Ascii.eqb a b && startsWith s' p'
  | String _ _, EmptyString => false
  end.

(** [s.slice(n)] for [0 <= n]. *)
Fixpoint slice (n : nat) (s : string) : string :=
  match n, s with
  | O, _ => s
  | S n', String _ r => slice n' r
  | S _, EmptyString => EmptyString
  end.

Definition LF : ascii := ascii_of_N 10.
Definition CR : ascii := ascii_of_N 13.

(** [s.split(/\r?\n/)]: never the empty list. *)
Fixpoint split_lines (s : string) : list string :=
  match s with
  | EmptyString => [EmptyString]
  | String c r =>
      if Ascii.eqb c LF then EmptyString :: split_lines r
      else
        match r with
        | String d r' =>
            if Ascii.eqb c CR && Ascii.eqb d LF
            then EmptyString :: split_lines r'
            else match split_lines r with
                 | h :: t => String c h :: t
                 | [] => [String c EmptyString]
                 end
        | EmptyString => [String c EmptyString]
        end
  end.

(** [String(n)] for an integer [n] that JavaScript prints digit by digit,
    that is, below [10^21] in absolute value. *)
Definition of_int (n : Z) : string := pretty n.

End Js.

(** ** JSON values *)

Inductive json : Type :=
  | JNull
  | JBool (b : bool)
  | JNum (x : float)
  | JStr (s : string)
  | JArr (l : list json)
  | JObj (fields : list (string * json)).

(** Property read [o.k] on a JSON object. *)
Fixpoint get_field (k : string) (fields : list (string * json)) : option json :=
  match fields with
  | [] => None
  | (k', v) :: r => if String.eqb k k' then Some v else get_field k r
  end.

(** ** Provider resolver *)

Module Resolver.

(** [process.env]. *)
Abbreviation Env := (gmap string string).

Definition getProviderFromEnv (env : Env) : string :=
  Js.toLowerCase (Js.or_else (env !! "GEMINI_CLI_PROVIDER") "").

Definition getDeepSeekBaseUrl (env : Env) : string :=
  let provider := getProviderFromEnv env in
  if String.eqb provider "openai_compatible"
  then Js.or_else (env !! "OPENAI_COMPAT_BASE_URL") "https://api.openai.com/v1"
  else Js.or_else (env !! "DEEPSEEK_BASE_URL") "https://api.deepseek.com".

(** A thrown [Error]: its message and optional [code]. *)
Record JsError := { message : string; code : option Z }.

Definition getDeepSeekApiKey (env : Env) : JsError + string :=
  let provider := getProviderFromEnv env in
  let key :=
    if String.eqb provider "openai_compatible"
    then env !! "OPENAI_COMPAT_API_KEY"
    else env !! "DEEPSEEK_API_KEY" in
  if negb (Js.truthy key) then
    inl {| message :=
             if String.eqb provider "openai_compatible"
             then "OpenAI-compatible API key is required when GEMINI_CLI_PROVIDER=openai_compatible."
             else "DeepSeek API key is required when GEMINI_CLI_PROVIDER=deepseek.";
           code := Some 401%Z |}
  else inr (default "" key).

Definition isDeepSeekEnabled (env : Env) : bool :=
  let provider := getProviderFromEnv env in
  if String.eqb provider "deepseek" then true
  else if String.eqb provider "openai_compatible" then true
  else if negb (String.eqb provider "") then false
  else Js.truthy (env !! "DEEPSEEK_API_KEY")
       && negb (Js.truthy (env !! "GEMINI_API_KEY")).

Definition resolveDeepSeekModel (env : Env) (requestModel : option string) : string :=
  let provider := getProviderFromEnv env in
  let envModel :=
    if String.eqb provider "openai_compatible"
    then env !! "OPENAI_COMPAT_MODEL"
    else env !! "DEEPSEEK_MODEL" in
  if Js.truthy envModel then default "" envModel
  else if Js.truthy requestModel
          && Js.startsWith (default "" requestModel) "deepseek-"
  then default "" requestModel
  else if String.eqb provider "openai_compatible" then "gpt-4o-mini"
  else "deepseek-chat".

Section Temperature.
(** [Number(raw)]. *)
Variable Number_ : string -> float.

Definition resolveOpenAICompatTemperature (env : Env) : option float :=
  let provider := getProviderFromEnv env in
  if negb (String.eqb provider "openai_compatible") then None
  else
    let raw := env !! "OPENAI_COMPAT_TEMPERATURE" in
    if negb (Js.truthy raw) then None
    else
      let parsed := Number_ (default "" raw) in
      if negb (PrimFloat.is_finite parsed) then None
      else Some parsed.
End Temperature.

End Resolver.

(** ** Data model *)

(** [DeepSeekToolCall]; its [type] is the constant ['function']. *)
Record DeepSeekFunction := { fn_name : string; fn_arguments : string }.
Record DeepSeekToolCall := { tc_id : string; tc_function : DeepSeekFunction }.

(** [DeepSeekTool]; its [type] is the constant ['function']. *)
Record DeepSeekTool := {
  tool_name : string;
  tool_description : option string;
  tool_parameters : json }.

Inductive DeepSeekMessage : Type :=
  | MsgSystem (content : string)
  | MsgUser (content : string)
  | MsgAssistant (content : string)
  | MsgAssistantToolCalls (content : string) (tool_calls : list DeepSeekToolCall)
  | MsgTool (content : string) (tool_call_id : string).

(** The parts of the generic request that the translator reads. *)
Record FunctionCall := {
  fc_id : option string;
  fc_name : option string;
  fc_args : option json }.

Record FunctionResponse := {
  fr_id : option string;
  fr_name : option string;
  fr_response : option json }.

(** A field is [None] when its key is absent; a [text] key that holds
    anything but a string is not represented. *)
Record Part := {
  text : option string;
  functionCall : option FunctionCall;
  functionResponse : option FunctionResponse }.

(** A value with both a [role] and a [parts] key. *)
Record Content := { role : option string; parts : option (list Part) }.

(** The shapes of [config.systemInstruction]. *)
Inductive SystemInstruction : Type :=
  | SIString (s : string)
  | SIContent (c : Content)
  | SIPart (p : Part)
  | SIParts (ps : list Part).

Record FunctionDeclaration := {
  fd_name : option string;
  fd_description : option string;
  fd_parameters : option json }.

Record Tool := { functionDeclarations : option (list FunctionDeclaration) }.

Record Config := {
  systemInstruction : option SystemInstruction;
  tools : option (list Tool) }.

(** An element of [request.contents]: a [Content], or a value that
    [isContent] rejects (a string or a bare part). *)
Inductive ContentItem : Type :=
  | ItemContent (c : Content)
  | ItemOther.

Inductive ContentListUnion : Type :=
  | ContentsArray (l : list ContentItem)
  | ContentsSingle (c : ContentItem).

Record GenerateContentParameters := {
  model : option string;
  contents : ContentListUnion;
  config : option Config }.

(** ** Request translator *)

Module Translator.

Section WithPlatform.

(** [JSON.stringify] on a part and on a response payload. *)
Variable JSON_stringify_part : Part -> string.
Variable JSON_stringify : json -> string.
(** The [k]-th value of [Math.random().toString(16).slice(2)]. *)
Variable random_suffix : nat -> string.

Definition partToText (part : Part) : string :=
  match text part with
  | Some t => t
  | None => JSON_stringify_part part
  end.

Definition contentPartsToText (parts : option (list Part)) : string :=
  match parts with
  | None | Some [] => ""
  | Some ps => String.concat "" (map partToText ps)
  end.

Definition normalizeSystemInstruction
    (systemInstruction : option SystemInstruction) : option string :=
  match systemInstruction with
  | None => None
  | Some (SIString s) => if String.eqb s "" then None else Some s
  | Some (SIContent c) =>
      match parts c with
      | Some ps => Some (contentPartsToText (Some ps))
      | None => None
      end
  | Some (SIPart p) =>
      match text p with
      | Some _ => Some (partToText p)
      | None => None
      end
  | Some (SIParts ps) => Some (contentPartsToText (Some ps))
  end.

Definition default_parameters : json :=
  JObj [("type", JStr "object"); ("properties", JObj [])].

Definition declaration_to_tool (fn : FunctionDeclaration) : option DeepSeekTool :=
  if negb (Js.truthy (fd_name fn)) then None
  else Some {| tool_name := default "" (fd_name fn);
               tool_description := fd_description fn;
               tool_parameters := default default_parameters (fd_parameters fn) |}.

Definition convertFunctionDeclarationsToDeepSeekTools
    (functionDeclarations : option (list FunctionDeclaration))
    : option (list DeepSeekTool) :=
  match functionDeclarations with
  | None | Some [] => None
  | Some fds =>
      match omap declaration_to_tool fds with
      | [] => None
      | ts => Some ts
      end
  end.

Definition isContent (value : ContentItem) : option Content :=
  match value with
  | ItemContent c => Some c
  | ItemOther => None
  end.

Definition normalizedContents (rawContents : ContentListUnion) : list Content :=
  match rawContents with
  | ContentsArray l => omap isContent l
  | ContentsSingle v => match isContent v with Some c => [c] | None => [] end
  end.

(** [fr.response ?? {}]. *)
Definition response_payload (fr : FunctionResponse) : json :=
  match fr_response fr with
  | None | Some JNull => JObj []
  | Some v => v
  end.

Definition payload_output (payload : json) : string :=
  match payload with
  | JObj fields =>
      match get_field "output" fields with
      | Some (JStr s) => s
      | _ => JSON_stringify payload
      end
  | _ => JSON_stringify payload
  end.

(** One [tool] message; [k] counts the draws of [Math.random] so far. *)
Definition functionResponse_message (k : nat) (fr : FunctionResponse)
    : DeepSeekMessage * nat :=
  let '(toolCallId, k') :=
    match fr_id fr with
    | Some i => (i, k)
    | None => (default "tool" (fr_name fr) +:+ "_" +:+ random_suffix k, S k)
    end in
  (MsgTool (payload_output (response_payload fr)) toolCallId, k').

Fixpoint functionResponse_messages (k : nat) (frs : list FunctionResponse)
    : list DeepSeekMessage * nat :=
  match frs with
  | [] => ([], k)
  | fr :: rest =>
      let '(m, k1) := functionResponse_message k fr in
      let '(ms, k2) := functionResponse_messages k1 rest in
      (m :: ms, k2)
  end.

(** [(parts ?? []).filter((p) => !!p.functionResponse)], each with its
    response. *)
Definition functionResponses (parts : option (list Part)) : list FunctionResponse :=
  omap functionResponse (default [] parts).

(** The body of the loop over [normalizedContents]: the messages pushed for
    one turn. *)
Definition translate_content (k : nat) (content : Content)
    : list DeepSeekMessage * nat :=
  let role := role content in
  let parts := parts content in
  if bool_decide (role = Some "user") then
    match functionResponses parts with
    | [] => ([MsgUser (contentPartsToText parts)], k)
    | frs => functionResponse_messages k frs
    end
  else if bool_decide (role = Some "model") then
    let text := contentPartsToText parts in
    if negb (String.eqb text "") then ([MsgAssistant text], k) else ([], k)
  else ([MsgUser (contentPartsToText parts)], k).

Fixpoint translate_contents (k : nat) (cs : list Content)
    : list DeepSeekMessage * nat :=
  match cs with
  | [] => ([], k)
  | c :: rest =>
      let '(ms, k1) := translate_content k c in
      let '(ms', k2) := translate_contents k1 rest in
      (ms ++ ms', k2)
  end.

Definition system_messages (systemInstructionText : option string)
    : list DeepSeekMessage :=
  if Js.truthy systemInstructionText
  then [MsgSystem (default "" systemInstructionText)]
  else [].

Definition geminiRequestToDeepSeekMessages (k : nat)
    (request : GenerateContentParameters)
    : list DeepSeekMessage * option (list DeepSeekTool) :=
  let systemInstructionText :=
    normalizeSystemInstruction
      (match config request with
       | Some cfg => systemInstruction cfg
       | None => None
       end) in
  let functionDeclarations :=
    match config request with
    | Some cfg =>
        match tools cfg with
        | Some (t :: _) => functionDeclarations t
        | _ => None
        end
    | None => None
    end in
  let tools := convertFunctionDeclarationsToDeepSeekTools functionDeclarations in
  let messages :=
    system_messages systemInstructionText
    ++ fst (translate_contents k (normalizedContents (contents request))) in
  (messages, tools).

End WithPlatform.

End Translator.

(** ** Content generator facade: the request bodies *)

(** The object handed to [JSON.stringify] as the body of the POST. *)
Record RequestBody := {
  body_model : string;
  body_messages : list DeepSeekMessage;
  body_tools : option (list DeepSeekTool);
  body_tool_choice : option string;
  body_temperature : option float;
  body_stream : option bool;
  body_user : string }.

Module Facade.

Import Resolver Translator.

Section WithPlatform.

Variable JSON_stringify_part : Part -> string.
Variable JSON_stringify : json -> string.
Variable random_suffix : nat -> string.
Variable Number_ : string -> float.

Definition not_enabled_error : JsError :=
  {| message := "DeepSeekContentGenerator called but GEMINI_CLI_PROVIDER is not set to deepseek";
     code := None |}.

(** [generateContent] up to the call of [fetch]: the error thrown, or the
    body sent. *)
Definition generateContent_body (env : Env) (k : nat)
    (request : GenerateContentParameters) (userPromptId : string)
    : JsError + RequestBody :=
  if negb (isDeepSeekEnabled env) then inl not_enabled_error
  else
    match getDeepSeekApiKey env with
    | inl err => inl err
    | inr _ =>
        let '(messages, tools) :=
          geminiRequestToDeepSeekMessages JSON_stringify_part JSON_stringify
            random_suffix k request in
        let temperature := resolveOpenAICompatTemperature Number_ env in
        inr {| body_model := resolveDeepSeekModel env (model request);
               body_messages := messages;
               body_tools := tools;
               body_tool_choice :=
                 match tools with Some _ => Some "auto" | None => None end;
               body_temperature := temperature;
               body_stream := None;
               body_user := userPromptId |}
    end.

(** [generateContentStream] up to the call of [fetch]. *)
Definition generateContentStream_body (env : Env) (k : nat)
    (request : GenerateContentParameters) (userPromptId : string)
    : JsError + RequestBody :=
  if negb (isDeepSeekEnabled env) then inl not_enabled_error
  else
    match getDeepSeekApiKey env with
    | inl err => inl err
    | inr _ =>
        let '(messages, tools) :=
          geminiRequestToDeepSeekMessages JSON_stringify_part JSON_stringify
            random_suffix k request in
        inr {| body_model := resolveDeepSeekModel env (model request);
               body_messages := messages;
               body_tools := tools;
               body_tool_choice :=
                 match tools with Some _ => Some "auto" | None => None end;
               body_temperature := None;
               body_stream := Some true;
               body_user := userPromptId |}
    end.

End WithPlatform.

End Facade.

(** ** Streaming reconstruction engine *)

(** [DeepSeekChatCompletionStreamChunk], as far as [gen] reads it. *)
Record FunctionDelta := {
  d_name : option string;
  d_arguments : option string }.

Record ToolCallDelta := {
  d_index : option Z;
  d_id : option string;
  d_function : option FunctionDelta }.

Record StreamDelta := {
  d_content : option string;
  d_tool_calls : option (list ToolCallDelta) }.

Record StreamChoice := {
  c_delta : option StreamDelta;
  c_finish_reason : option string }.

Record DeepSeekChatCompletionStreamChunk := {
  choices : option (list StreamChoice) }.

(** A response chunk: its [candidates], each holding a [content]. *)
Record Candidate := { cand_content : Content }.
Record GenerateContentResponse := { candidates : list Candidate }.

Module Stream.

(** [Map<number, DeepSeekToolCall>]: the entries in insertion order, with
    pairwise distinct keys. *)
Abbreviation ToolCallMap := (list (Z * DeepSeekToolCall)).

Fixpoint Map_get (idx : Z) (m : ToolCallMap) : option DeepSeekToolCall :=
  match m with
  | [] => None
  | (i, v) :: r => if Z.eqb i idx then Some v else Map_get idx r
  end.

(** [m.set(idx, v)]: an existing key keeps its place, a new key goes last. *)
Fixpoint Map_set (idx : Z) (v : DeepSeekToolCall) (m : ToolCallMap) : ToolCallMap :=
  match m with
  | [] => [(idx, v)]
  | (i, w) :: r =>
      if Z.eqb i idx then (i, v) :: r else (i, w) :: Map_set idx v r
  end.

(** [Array.prototype.sort(compare)]: a stable sort. *)
Section Sort.
Context {A : Type} (compare : A -> A -> Z).

Fixpoint sort_insert (x : A) (l : list A) : list A :=
  match l with
  | [] => [x]
  | y :: r =>
      if (compare x y <=? 0)%Z then x :: y :: r else y :: sort_insert x r
  end.

Definition Array_sort (l : list A) : list A := foldr sort_insert [] l.
End Sort.

Definition text_part (t : string) : Part :=
  {| text := Some t; functionCall := None; functionResponse := None |}.

Definition functionCall_part (fc : FunctionCall) : Part :=
  {| text := None; functionCall := Some fc; functionResponse := None |}.

Definition model_chunk (ps : list Part) : GenerateContentResponse :=
  {| candidates :=
       [ {| cand_content := {| role := Some "model"; parts := Some ps |} |} ] |}.

Definition createGeminiStreamTextChunk (t : string) : GenerateContentResponse :=
  model_chunk [text_part t].

Section WithPlatform.

(** [JSON.parse(data) as DeepSeekChatCompletionStreamChunk]; [None] when
    [JSON.parse] throws.  The payload is taken to parse to a value whose
    fields can be read: on the payload [null] the source throws while
    reading [chunk.choices], outside the [try], which has no counterpart
    here. *)
Variable JSON_parse_chunk : string -> option DeepSeekChatCompletionStreamChunk.
(** [JSON.parse] on the arguments text of a tool call. *)
Variable JSON_parse : string -> option json.

Definition parse_arguments (arguments : string) : json :=
  if String.eqb arguments "" then JObj []
  else
    match JSON_parse arguments with
    | Some v => v
    | None => JObj [("__raw", JStr arguments)]
    end.

Definition toolCall_part (tc : DeepSeekToolCall) : Part :=
  functionCall_part
    {| fc_id := Some (tc_id tc);
       fc_name := Some (fn_name (tc_function tc));
       fc_args := Some (parse_arguments (fn_arguments (tc_function tc))) |}.

Definition createGeminiStreamToolCallsChunk (toolCalls : list DeepSeekToolCall)
    : GenerateContentResponse :=
  model_chunk (map toolCall_part toolCalls).

Definition compare_index (x y : Z * DeepSeekToolCall) : Z := (x.1 - y.1)%Z.

Definition sorted_calls (toolCallsByIndex : ToolCallMap) : list DeepSeekToolCall :=
  map snd (Array_sort compare_index toolCallsByIndex).

(** The chunks yielded by [flushToolCallsIfAny]. *)
Definition flushToolCallsIfAny (toolCallsByIndex : ToolCallMap)
    : list GenerateContentResponse :=
  match sorted_calls toolCallsByIndex with
  | [] => []
  | calls => [createGeminiStreamToolCallsChunk calls]
  end.

(** The body of the loop over [delta.tool_calls]. *)
Definition merge_tool_call (toolCallsByIndex : ToolCallMap) (tc : ToolCallDelta)
    : ToolCallMap :=
  let idx := default 0%Z (d_index tc) in
  let existing := Map_get idx toolCallsByIndex in
  let id :=
    Js.or_else (d_id tc)
      (Js.or_else (tc_id <$> existing) ("call_" +:+ Js.of_int idx)) in
  let name :=
    Js.or_else (d_function tc ≫= d_name)
      (Js.or_else (fn_name ∘ tc_function <$> existing) "tool") in
  let argsDelta := Js.or_else (d_function tc ≫= d_arguments) "" in
  let args :=
    Js.or_else (fn_arguments ∘ tc_function <$> existing) ""
    +:+ Js.or_else (Some argsDelta) "" in
  Map_set idx
    {| tc_id := id; tc_function := {| fn_name := name; fn_arguments := args |} |}
    toolCallsByIndex.

(** One parsed frame: the chunks yielded and the accumulator afterwards. *)
Definition process_chunk (toolCallsByIndex : ToolCallMap)
    (chunk : DeepSeekChatCompletionStreamChunk)
    : list GenerateContentResponse * ToolCallMap :=
  let choice := choices chunk ≫= head in
  let delta := choice ≫= c_delta in
  let content := delta ≫= d_content in
  let texts :=
    if Js.truthy content then [createGeminiStreamTextChunk (default "" content)]
    else [] in
  let m :=
    match delta ≫= d_tool_calls with
    | Some tcs => foldl merge_tool_call toolCallsByIndex tcs
    | None => toolCallsByIndex
    end in
  let flushed :=
    if Js.truthy (choice ≫= c_finish_reason) then flushToolCallsIfAny m else [] in
  (texts ++ flushed, m).

(** The payload of a [data:] line, [None] for any other line. *)
Definition line_data (rawLine : string) : option string :=
  let line := Js.trim rawLine in
  if negb (Js.startsWith line "data:") then None
  else Some (Js.trim (Js.slice 5 line)).

(** The loop over [lines]: the chunks yielded, the accumulator, and whether
    the generator returned (on the sentinel). *)
Fixpoint process_lines (toolCallsByIndex : ToolCallMap) (lines : list string)
    : list GenerateContentResponse * ToolCallMap * bool :=
  match lines with
  | [] => ([], toolCallsByIndex, false)
  | rawLine :: rest =>
      match line_data rawLine with
      | None => process_lines toolCallsByIndex rest
      | Some data =>
          if String.eqb data "" then process_lines toolCallsByIndex rest
          else if String.eqb data "[DONE]"
          then (flushToolCallsIfAny toolCallsByIndex, toolCallsByIndex, true)
          else
            match JSON_parse_chunk data with
            | None => process_lines toolCallsByIndex rest
            | Some chunk =>
                let '(out, m) := process_chunk toolCallsByIndex chunk in
                let '(out', m', returned) := process_lines m rest in
                (out ++ out', m', returned)
            end
      end
  end.

(** [lines = buffer.split(/\r?\n/); buffer = lines.pop() ?? ''].*)
Definition take_lines (buffer : string) : list string * string :=
  let lines := Js.split_lines buffer in
  (removelast lines, default "" (last lines)).

(** The generator [gen]: [reads] are the decoded values of the successive
    [reader.read()] results before the one with [done] set; the result is
    the sequence of chunks yielded. *)
Fixpoint gen_loop (reads : list string) (buffer : string)
    (toolCallsByIndex : ToolCallMap) : list GenerateContentResponse :=
  match reads with
  | [] =>
      let '(lines, _) := take_lines buffer in
      let '(out, m, returned) := process_lines toolCallsByIndex lines in
      if returned then out else out ++ flushToolCallsIfAny m
  | value :: reads' =>
      let '(lines, buffer') := take_lines (buffer +:+ value) in
      let '(out, m, returned) := process_lines toolCallsByIndex lines in
      if returned then out else out ++ gen_loop reads' buffer' m
  end.

Definition gen (reads : list string) : list GenerateContentResponse :=
  gen_loop reads "" [].

End WithPlatform.

End Stream.

(** ** Vocabulary of the properties *)

Module Props.

Import Resolver Translator Stream.

(** The provider selector names this family, in any letter case. *)
Definition names_this_family (env : Env) : Prop :=
  exists s,
    env !! "GEMINI_CLI_PROVIDER" = Some s
    /\ (Js.toLowerCase s = "deepseek" \/ Js.toLowerCase s = "openai_compatible").

(** The selector is unset: not in the environment, or empty. *)
Definition selector_unset (env : Env) : Prop :=
  env !! "GEMINI_CLI_PROVIDER" = None \/ env !! "GEMINI_CLI_PROVIDER" = Some "".

(** The environment holds a non-empty value under [key]. *)
Definition credential_present (env : Env) (key : string) : Prop :=
  exists v, env !! key = Some v /\ v <> "".

(** The [output] field of a response payload. *)
Definition payload_field_output (payload : json) : option json :=
  match payload with
  | JObj fields => get_field "output" fields
  | _ => None
  end.

Definition is_tool_message (m : DeepSeekMessage) : Prop :=
  exists c i, m = MsgTool c i.

(** The content delta of a parsed frame: [chunk.choices?.[0]?.delta?.content]. *)
Definition content_delta (chunk : DeepSeekChatCompletionStreamChunk) : option string :=
  match choices chunk with
  | Some (choice :: _) =>
      match c_delta choice with
      | Some delta => d_content delta
      | None => None
      end
  | _ => None
  end.

Definition finish_signal (chunk : DeepSeekChatCompletionStreamChunk) : option string :=
  match choices chunk with
  | Some (choice :: _) => c_finish_reason choice
  | _ => None
  end.

(** The argument fragment a delta carries, empty when it carries none. *)
Definition arguments_fragment (tc : ToolCallDelta) : string :=
  match d_function tc with
  | Some f => default "" (d_arguments f)
  | None => ""
  end.

Definition delta_name (tc : ToolCallDelta) : option string :=
  match d_function tc with
  | Some f => d_name f
  | None => None
  end.

Definition index_le (x y : Z * DeepSeekToolCall) : Prop := (x.1 <= y.1)%Z.

(** The parts of the single candidate of a chunk. *)
Definition chunk_parts (r : GenerateContentResponse) : list Part :=
  match candidates r with
  | [c] => default [] (parts (cand_content c))
  | _ => []
  end.

(** The tool-call deltas of a parsed frame. *)
Definition frame_tool_calls (chunk : DeepSeekChatCompletionStreamChunk)
    : list ToolCallDelta :=
  match choices chunk with
  | Some (choice :: _) =>
      match c_delta choice with
      | Some delta => default [] (d_tool_calls delta)
      | None => []
      end
  | _ => []
  end.

(** The text chunk owed to a content delta: one for a non-empty text. *)
Definition text_chunks_of (content : option string)
    : list GenerateContentResponse :=
  match content with
  | Some t => if String.eqb t "" then [] else [createGeminiStreamTextChunk t]
  | None => []
  end.

(** The chunk has a part that carries text. *)
Definition carries_text (r : GenerateContentResponse) : Prop :=
  exists p, p ∈ chunk_parts r /\ is_Some (text p).

Fixpoint contains_LF (s : string) : bool :=
  match s with
  | EmptyString => false
  | String c r => Ascii.eqb c Js.LF || contains_LF r
  end.

(** The request with its system instruction replaced by [si]. *)
Definition with_system_instruction (si : SystemInstruction)
    (request : GenerateContentParameters) : GenerateContentParameters :=
  {| model := model request;
     contents := contents request;
     config :=
       Some {| systemInstruction := Some si;
               tools := match config request with
                        | Some cfg => tools cfg
                        | None => None
                        end |} |}.

(** [msg] is the tool message the specification prescribes for the function
    response [fr]: the identifier of the response or a synthesized one, and
    the string output of the payload or the serialized payload. *)
Definition tool_message_for (JSON_stringify : json -> string)
    (random_suffix : nat -> string) (fr : FunctionResponse)
    (msg : DeepSeekMessage) : Prop :=
  exists c i,
    msg = MsgTool c i
    /\ match fr_id fr with
       | Some x => i = x
       | None =>
           exists j, i = default "tool" (fr_name fr) +:+ "_" +:+ random_suffix j
       end
    /\ match payload_field_output (response_payload fr) with
       | Some (JStr s) => c = s
       | _ => c = JSON_stringify (response_payload fr)
       end.



End Props.

(** ** Instances of the platform functions for the closed examples

    [JSON_parse_chunk] is [JSON.parse] on the four payloads written out
    below and rejects every other text; the others agree with the platform
    function on the inputs named at each. *)

Module Fixtures.

Definition lookup_table {A : Type} (table : list (string * A)) (s : string)
    : option A :=
  snd <$> find (fun e => String.eqb e.1 s) table.

(** The double quote. *)
Definition dq : string := String (ascii_of_N 34) EmptyString.

(** [JSON.stringify] on the part that is empty and on the part that is a
    function call holding at most a name. *)
Definition JSON_stringify_part (p : Part) : string :=
  match functionCall p with
  | Some fc =>
      "{" +:+ dq +:+ "functionCall" +:+ dq +:+ ":{"
      +:+ match fc_name fc with
          | Some n => dq +:+ "name" +:+ dq +:+ ":" +:+ dq +:+ n +:+ dq
          | None => ""
          end
      +:+ "}}"
  | None => "{}"
  end.

(** [JSON.stringify] on the empty object, on an object whose one field
    holds [true], and on [null]. *)
Definition JSON_stringify (v : json) : string :=
  match v with
  | JObj [] => "{}"
  | JObj [(k, JBool true)] => "{" +:+ dq +:+ k +:+ dq +:+ ":true}"
  | _ => "null"
  end.

(** One possible run of draws: the suffixes differ from draw to draw. *)
Definition random_suffix (k : nat) : string := "c0ffee" +:+ pretty k.

(** [Number] on the text [0.5]; the other texts of the examples are no
    numerals. *)
Definition Number_ (raw : string) : float :=
  if String.eqb raw "0.5" then 0.5%float else nan.

(** [JSON.parse] on the text of the empty object; any other text is taken
    not to parse. *)
Definition JSON_parse (s : string) : option json :=
  lookup_table [("{}", JObj [])] s.

Definition tool_delta (idx : Z) (i n a : option string) : ToolCallDelta :=
  {| d_index := Some idx;
     d_id := i;
     d_function := Some {| d_name := n; d_arguments := a |} |}.

Definition frame (c : option string) (tcs : option (list ToolCallDelta))
    (f : option string) : DeepSeekChatCompletionStreamChunk :=
  {| choices :=
       Some [ {| c_delta := Some {| d_content := c; d_tool_calls := tcs |};
                 c_finish_reason := f |} ] |}.

(** The JSON text of four frames. *)
Definition quoted (s : string) : string := dq +:+ s +:+ dq.

Definition field (k v : string) : string := quoted k +:+ ":" +:+ v.

Definition choices_payload (choice_fields : string) : string :=
  "{" +:+ field "choices" ("[{" +:+ choice_fields +:+ "}]") +:+ "}".

Definition content_payload (t : string) : string :=
  choices_payload (field "delta" ("{" +:+ field "content" (quoted t) +:+ "}")).

Definition tool_calls_delta (idx i n a : string) : string :=
  field "delta"
    ("{" +:+ field "tool_calls"
       ("[{" +:+ field "index" idx +:+ "," +:+ field "id" (quoted i) +:+ ","
        +:+ field "function"
              ("{" +:+ field "name" (quoted n) +:+ ","
               +:+ field "arguments" (quoted a) +:+ "}")
        +:+ "}]")
     +:+ "}").

Definition hello_payload : string := content_payload "hello".
Definition empty_payload : string := content_payload "".
Definition call1_payload : string :=
  choices_payload (tool_calls_delta "1" "b" "g" "{}").
Definition call0_payload : string :=
  choices_payload
    (tool_calls_delta "0" "a" "f" "{}" +:+ ","
     +:+ field "finish_reason" (quoted "tool_calls")).

Definition hello_line : string := "data: " +:+ hello_payload.
Definition empty_line : string := "data: " +:+ empty_payload.
Definition call1_line : string := "data: " +:+ call1_payload.
Definition call0_line : string := "data: " +:+ call0_payload.

(** The frames these four texts parse to; any other text is taken not to
    parse. *)
Definition JSON_parse_chunk (s : string) : option DeepSeekChatCompletionStreamChunk :=
  lookup_table
    [ (hello_payload, frame (Some "hello") None None);
      (empty_payload, frame (Some "") None None);
      (call1_payload,
       frame None (Some [tool_delta 1 (Some "b") (Some "g") (Some "{}")]) None);
      (call0_payload,
       frame None (Some [tool_delta 0 (Some "a") (Some "f") (Some "{}")])
         (Some "tool_calls")) ] s.

Definition nl : string := String Js.LF EmptyString.

(** An environment selecting the generic-compatible variant with a
    temperature override. *)
Definition compat_env : Resolver.Env :=
  <["GEMINI_CLI_PROVIDER" := "openai_compatible"]>
    (<["OPENAI_COMPAT_API_KEY" := "sk-test"]>
       (<["OPENAI_COMPAT_TEMPERATURE" := "0.5"]> ∅)).

Definition response_part (fr : FunctionResponse) : Part :=
  {| text := None; functionCall := None; functionResponse := Some fr |}.

(** The function response of the specification's example: id [call_1],
    payload with output 42. *)
Definition call_1_response : FunctionResponse :=
  {| fr_id := Some "call_1";
     fr_name := Some "lookup";
     fr_response := Some (JObj [("output", JStr "42")]) |}.

Definition user_turn (ps : list Part) : Content :=
  {| role := Some "user"; parts := Some ps |}.

Definition model_turn (ps : list Part) : Content :=
  {| role := Some "model"; parts := Some ps |}.

(** A function call that holds a name only. *)
Definition lookup_call : FunctionCall :=
  {| fc_id := None; fc_name := Some "lookup"; fc_args := None |}.

End Fixtures.

(** ** URL joining *)

Module Url.

Definition slash : ascii := ascii_of_N 47.

(** [path.replace(/^\/+/, '')]. *)
Fixpoint strip_leading_slashes (s : string) : string :=
  match s with
  | String c r => if Ascii.eqb c slash then strip_leading_slashes r else s
  | EmptyString => EmptyString
  end.

Fixpoint all_slashes (s : string) : bool :=
  match s with
  | EmptyString => true
  | String c r => Ascii.eqb c slash && all_slashes r
  end.

(** [base.replace(/\/+$/, '')]. *)
Fixpoint strip_trailing_slashes (s : string) : string :=
  match s with
  | EmptyString => EmptyString
  | String c r =>
      if all_slashes s then EmptyString else String c (strip_trailing_slashes r)
  end.

Definition joinUrl (base path : string) : string :=
  strip_trailing_slashes base +:+ "/" +:+ strip_leading_slashes path.

Fixpoint ends_with_slash (s : string) : bool :=
  match s with
  | EmptyString => false
  | String c EmptyString => Ascii.eqb c slash
  | String _ r => ends_with_slash r
  end.

End Url.

(** ** Completion response translator *)

(** [DeepSeekChatCompletionResponse], as far as the translator reads it. *)
Record ResponseMessage := {
  msg_content : option string;
  msg_tool_calls : option (list DeepSeekToolCall) }.

Record ResponseChoice := {
  rc_message : ResponseMessage;
  rc_finish_reason : option string }.

Record ResponseUsage := {
  prompt_tokens : option float;
  completion_tokens : option float;
  total_tokens : option float }.

Record DeepSeekChatCompletionResponse := {
  resp_choices : option (list ResponseChoice);
  resp_usage : option ResponseUsage }.

(** The response of a non-streaming call: its candidates, each with a
    content and a finish reason, and the total token count of
    [usageMetadata] when there is one. *)
Record CompletionCandidate := {
  completion_content : Content;
  finishReason : string }.

Record CompletionResponse := {
  completion_candidates : list CompletionCandidate;
  usageMetadata : option float }.

Module Completion.

Section WithPlatform.

Variable JSON_parse : string -> option json.
(** [String.prototype.toUpperCase]. *)
Variable toUpperCase : string -> string.

(** The body of the loop over [msg.tool_calls]. *)
Definition toolCall_to_part (tc : DeepSeekToolCall) : Part :=
  let arguments := fn_arguments (tc_function tc) in
  let parsedArgs :=
    if negb (String.eqb arguments "") then
      match JSON_parse arguments with
      | Some v => v
      | None => JObj [("__raw", JStr arguments)]
      end
    else JObj [] in
  {| text := None;
     functionCall :=
       Some {| fc_id := Some (tc_id tc);
               fc_name := Some (fn_name (tc_function tc));
               fc_args := Some parsedArgs |};
     functionResponse := None |}.

Definition deepSeekResponseToGeminiResponse
    (resp : DeepSeekChatCompletionResponse) : CompletionResponse :=
  let choice := resp_choices resp ≫= head in
  let msg := rc_message <$> choice in
  let content := msg ≫= msg_content in
  let textParts :=
    if Js.truthy content
    then [ {| text := content; functionCall := None; functionResponse := None |} ]
    else [] in
  let callParts :=
    match msg ≫= msg_tool_calls with
    | Some tcs => map toolCall_to_part tcs
    | None => []
    end in
  {| completion_candidates :=
       [ {| completion_content :=
              {| role := Some "model"; parts := Some (textParts ++ callParts) |};
            finishReason :=
              Js.or_else (toUpperCase <$> (choice ≫= rc_finish_reason)) "STOP" |} ];
     usageMetadata :=
       match resp_usage resp with
       | Some usage => total_tokens usage
       | None => None
       end |}.

End WithPlatform.

(** The message of the first choice. *)
Definition first_message (resp : DeepSeekChatCompletionResponse)
    : option ResponseMessage :=
  match resp_choices resp with
  | Some (choice :: _) => Some (rc_message choice)
  | _ => None
  end.

Definition message_tool_calls (resp : DeepSeekChatCompletionResponse)
    : list DeepSeekToolCall :=
  match first_message resp with
  | Some msg => default [] (msg_tool_calls msg)
  | None => []
  end.

Definition message_content (resp : DeepSeekChatCompletionResponse)
    : option string :=
  match first_message resp with
  | Some msg => msg_content msg
  | None => None
  end.

(** The parts of the single candidate. *)
Definition response_parts (r : CompletionResponse) : list Part :=
  match completion_candidates r with
  | [c] => default [] (parts (completion_content c))
  | _ => []
  end.

End Completion.

(** ** Authentication dialog *)

Module AuthDialog.

Import Resolver.

Inductive AuthSelectionValue : Type :=
  | login_with_google
  | compute_adc
  | gemini_api_key
  | deepseek_api_key
  | openai_compatible_api_key
  | vertex_ai.

(** The members of [AuthType] the dialog tells apart, and any other one. *)
Inductive AuthType : Type :=
  | LOGIN_WITH_GOOGLE
  | COMPUTE_ADC
  | USE_GEMINI
  | USE_VERTEX_AI
  | OTHER_AUTH_TYPE.

Record Item := { label : string; value : AuthSelectionValue }.

#[global] Instance AuthSelectionValue_eq_dec : EqDecision AuthSelectionValue.
Proof. solve_decision. Defined.

(** The assignment to [process.env] made on a selection, in [onSelect] and
    in [handleAuthSelect] alike. *)
Definition select_provider (selection : AuthSelectionValue) (env : Env) : Env :=
  match selection with
  | deepseek_api_key => <["GEMINI_CLI_PROVIDER" := "deepseek"]> env
  | openai_compatible_api_key =>
      <["GEMINI_CLI_PROVIDER" := "openai_compatible"]> env
  | gemini_api_key => <["GEMINI_CLI_PROVIDER" := "gemini"]> env
  | vertex_ai => delete "GEMINI_CLI_PROVIDER" env
  | _ => env
  end.

Definition authType_of (selection : AuthSelectionValue) : AuthType :=
  match selection with
  | login_with_google => LOGIN_WITH_GOOGLE
  | compute_adc => COMPUTE_ADC
  | vertex_ai => USE_VERTEX_AI
  | _ => USE_GEMINI
  end.

Definition is_true (o : option string) : bool :=
  match o with
  | Some s => String.eqb s "true"
  | None => false
  end.

Definition all_items (env : Env) : list Item :=
  [ {| label := "Login with Google"; value := login_with_google |} ]
  ++ (if is_true (env !! "CLOUD_SHELL")
      then [ {| label := "Use Cloud Shell user credentials";
                value := compute_adc |} ]
      else if is_true (env !! "GEMINI_CLI_USE_COMPUTE_ADC")
      then [ {| label := "Use metadata server application default credentials";
                value := compute_adc |} ]
      else [])
  ++ [ {| label := "Use Gemini API Key"; value := gemini_api_key |};
       {| label := "DeepSeek API Key"; value := deepseek_api_key |};
       {| label := "Custom (OpenAI-compatible) API Key";
          value := openai_compatible_api_key |};
       {| label := "Vertex AI"; value := vertex_ai |} ].

Definition value_is (v : AuthSelectionValue) (item : Item) : bool :=
  bool_decide (value item = v).

(** The predicate of [items.filter] under an enforced type. *)
Definition enforced_keeps (enforcedType : AuthType) (item : Item) : bool :=
  match enforcedType with
  | LOGIN_WITH_GOOGLE => value_is login_with_google item
  | COMPUTE_ADC => value_is compute_adc item
  | USE_GEMINI =>
      value_is gemini_api_key item
      || value_is deepseek_api_key item
      || value_is openai_compatible_api_key item
  | USE_VERTEX_AI => value_is vertex_ai item
  | OTHER_AUTH_TYPE => false
  end.

Definition items (env : Env) (enforcedType : option AuthType) : list Item :=
  match enforcedType with
  | Some t => List.filter (enforced_keeps t) (all_items env)
  | None => all_items env
  end.

(** [Array.prototype.findIndex]. *)
Fixpoint findIndex {A : Type} (p : A -> bool) (l : list A) : Z :=
  match l with
  | [] => (-1)%Z
  | x :: r =>
      if p x then 0%Z
      else let i := findIndex p r in
           if (i <? 0)%Z then (-1)%Z else (i + 1)%Z
  end.

Section WithEnum.

(** The member of [AuthType] whose value is the given text, if any. *)
Variable AuthType_of_value : string -> option AuthType.

Definition defaultAuthType (env : Env) : option AuthType :=
  let defaultAuthTypeEnv := env !! "GEMINI_DEFAULT_AUTH_TYPE" in
  if Js.truthy defaultAuthTypeEnv
  then AuthType_of_value (default "" defaultAuthTypeEnv)
  else None.

Definition defaultSelection (env : Env) : option AuthSelectionValue :=
  match defaultAuthType env with
  | Some LOGIN_WITH_GOOGLE => Some login_with_google
  | Some COMPUTE_ADC => Some compute_adc
  | Some USE_VERTEX_AI => Some vertex_ai
  | Some USE_GEMINI => Some gemini_api_key
  | _ => None
  end.

(** The predicate of [items.findIndex]. *)
Definition initially_selected (env : Env) (selectedType : option AuthType)
    (item : Item) : bool :=
  match selectedType with
  | Some LOGIN_WITH_GOOGLE => value_is login_with_google item
  | Some COMPUTE_ADC => value_is compute_adc item
  | Some USE_VERTEX_AI => value_is vertex_ai item
  | Some USE_GEMINI => value_is gemini_api_key item
  | Some OTHER_AUTH_TYPE => false
  | None =>
      match defaultSelection env with
      | Some d => value_is d item
      | None =>
          if Js.truthy (env !! "GEMINI_API_KEY")
          then value_is gemini_api_key item
          else value_is login_with_google item
      end
  end.

Definition initialAuthIndex (env : Env)
    (enforcedType selectedType : option AuthType) : Z :=
  match enforcedType with
  | Some _ => 0%Z
  | None =>
      findIndex (initially_selected env selectedType) (items env enforcedType)
  end.

End WithEnum.

End AuthDialog.

(** ** Configuration dialog of the generic-compatible variant *)

Module ConfigDialog.

Inductive Step : Type :=
  | StepScope
  | StepBaseUrl
  | StepDefaultModel
  | StepTemperature.

(** The two scopes the dialog offers. *)
Inductive LoadableSettingScope : Type :=
  | ScopeUser
  | ScopeWorkspace.

(** The React state of the component. *)
Record DialogState := {
  step : Step;
  scope : LoadableSettingScope;
  baseUrl : string;
  defaultModel : string;
  temperature : float;
  error : option string }.

(** The argument of [onComplete]. *)
Record DialogResult := {
  result_scope : LoadableSettingScope;
  result_baseUrl : string;
  result_defaultModel : string;
  result_temperature : float }.

Definition initial_state (defaultScope : LoadableSettingScope)
    (defaultBaseUrl defaultDefaultModel : string) (defaultTemperature : float)
    : DialogState :=
  {| step := StepScope;
     scope := defaultScope;
     baseUrl := defaultBaseUrl;
     defaultModel := defaultDefaultModel;
     temperature := defaultTemperature;
     error := None |}.

(** [onSelect] of the scope list. *)
Definition onSelectScope (value : LoadableSettingScope) (st : DialogState)
    : DialogState :=
  {| step := StepBaseUrl;
     scope := value;
     baseUrl := baseUrl st;
     defaultModel := defaultModel st;
     temperature := temperature st;
     error := error st |}.

Definition is_temperature_char (c : ascii) : bool :=
  let n := Js.code c in
  ((48 <=? n) && (n <=? 57) || (n =? 46) || (n =? 45))%N.

Definition is_line_break (c : ascii) : bool :=
  Ascii.eqb c Js.CR || Ascii.eqb c Js.LF.

Fixpoint keep_chars (keep : ascii -> bool) (s : string) : string :=
  match s with
  | EmptyString => EmptyString
  | String c r =>
      if keep c then String c (keep_chars keep r) else keep_chars keep r
  end.

Fixpoint all_chars (p : ascii -> bool) (s : string) : bool :=
  match s with
  | EmptyString => true
  | String c r => p c && all_chars p r
  end.

(** [inputFilter]. *)
Definition inputFilter (st : Step) (text : string) : string :=
  match st with
  | StepTemperature =>
      keep_chars (fun c => negb (is_line_break c))
        (keep_chars is_temperature_char text)
  | _ => keep_chars (fun c => negb (is_line_break c)) text
  end.

Section WithPlatform.

Variable Number_ : string -> float.

(** [handleSubmitText]: the state after the handler and the result handed
    to [onComplete], if it was called. *)
Definition handleSubmitText (value : string) (st : DialogState)
    : DialogState * option DialogResult :=
  let cleared :=
    {| step := step st; scope := scope st; baseUrl := baseUrl st;
       defaultModel := defaultModel st; temperature := temperature st;
       error := None |} in
  match step st with
  | StepBaseUrl =>
      let v := Js.trim value in
      if String.eqb v "" then
        ({| step := step st; scope := scope st; baseUrl := baseUrl st;
            defaultModel := defaultModel st; temperature := temperature st;
            error := Some "Base URL cannot be empty." |}, None)
      else
        ({| step := StepDefaultModel; scope := scope st; baseUrl := v;
            defaultModel := defaultModel st; temperature := temperature st;
            error := None |}, None)
  | StepDefaultModel =>
      let v := Js.trim value in
      if String.eqb v "" then
        ({| step := step st; scope := scope st; baseUrl := baseUrl st;
            defaultModel := defaultModel st; temperature := temperature st;
            error := Some "Default model cannot be empty." |}, None)
      else
        ({| step := StepTemperature; scope := scope st; baseUrl := baseUrl st;
            defaultModel := v; temperature := temperature st;
            error := None |}, None)
  | StepTemperature =>
      let v := Js.trim value in
      let parsed := Number_ v in
      if negb (PrimFloat.is_finite parsed) then
        ({| step := step st; scope := scope st; baseUrl := baseUrl st;
            defaultModel := defaultModel st; temperature := temperature st;
            error := Some "Temperature must be a number." |}, None)
      else
        ({| step := step st; scope := scope st; baseUrl := baseUrl st;
            defaultModel := defaultModel st; temperature := parsed;
            error := None |},
         Some {| result_scope := scope st;
                 result_baseUrl := baseUrl st;
                 result_defaultModel := defaultModel st;
                 result_temperature := parsed |})
  | StepScope => (cleared, None)
  end.

(** What the user can do: choose in the scope list, shown at the scope
    step, or submit the text input, shown at every other step. *)
Inductive Event : Type :=
  | SelectScope (value : LoadableSettingScope)
  | SubmitText (value : string).

Definition handle (ev : Event) (st : DialogState)
    : DialogState * option DialogResult :=
  match ev, step st with
  | SelectScope value, StepScope => (onSelectScope value st, None)
  | SelectScope _, _ => (st, None)
  | SubmitText _, StepScope => (st, None)
  | SubmitText value, _ => handleSubmitText value st
  end.

(** The state after a run of events and the results completed on the way. *)
Fixpoint run (evs : list Event) (st : DialogState)
    : DialogState * list DialogResult :=
  match evs with
  | [] => (st, [])
  | ev :: rest =>
      let '(st1, r) := handle ev st in
      let '(st2, rs) := run rest st1 in
      (st2, match r with Some x => x :: rs | None => rs end)
  end.

End WithPlatform.

(** A text the dialog accepts for a base URL or a model: not empty and
    without white space at either end. *)
Definition clean_text (s : string) : Prop := s <> "" /\ Js.trim s = s.

Definition clean_result (r : DialogResult) : Prop :=
  clean_text (result_baseUrl r)
  /\ clean_text (result_defaultModel r)
  /\ PrimFloat.is_finite (result_temperature r) = true.

(** What holds of the state at each step. *)
Definition step_invariant (st : DialogState) : Prop :=
  match step st with
  | StepScope | StepBaseUrl => True
  | StepDefaultModel => clean_text (baseUrl st)
  | StepTemperature => clean_text (baseUrl st) /\ clean_text (defaultModel st)
  end.

End ConfigDialog.

(** ** API key credential storage *)

Module CredentialStorage.

Record OAuthToken := { accessToken : string; tokenType : string }.

Record OAuthCredentials := {
  serverName : string;
  token : OAuthToken;
  updatedAt : Z }.

(** The outcome of an awaited call: its value, or a rejection. *)
Inductive Outcome (A : Type) : Type :=
  | Resolved (a : A)
  | Rejected.
Arguments Resolved {A} a.
Arguments Rejected {A}.

(** The three methods of [HybridTokenStorage] the module calls, over the
    state [S] of the store: [getCredentials] reads it, the other two return
    the new state with their outcome. *)
Class TokenStorage (S : Type) := {
  getCredentials : S -> string -> Outcome (option OAuthCredentials);
  setCredentials : S -> OAuthCredentials -> S * Outcome unit;
  deleteCredentials : S -> string -> S * Outcome unit }.

Definition DEFAULT_API_KEY_ENTRY : string := "default-api-key".
Definition DEEPSEEK_API_KEY_ENTRY : string := "deepseek-api-key".
Definition OPENAI_COMPAT_API_KEY_ENTRY : string := "openai-compatible-api-key".

Section WithStorage.

Context {S : Type} `{TokenStorage S}.

(** The body shared by the three [load] functions. *)
Definition load_entry (entry : string) (storage : S) : option string :=
  match getCredentials storage entry with
  | Resolved (Some credentials) =>
      if Js.truthy (Some (accessToken (token credentials)))
      then Some (accessToken (token credentials))
      else None
  | Resolved None => None
  | Rejected => None
  end.

Definition is_blank (apiKey : option string) : bool :=
  negb (Js.truthy apiKey) || String.eqb (Js.trim (default "" apiKey)) "".

(** The body shared by the three [save] functions; [now] is [Date.now()].
    The outcome is a rejection when [setCredentials] rejects. *)
Definition save_entry (entry : string) (apiKey : option string) (now : Z)
    (storage : S) : S * Outcome unit :=
  if is_blank apiKey then
    ((deleteCredentials storage entry).1, Resolved tt)
  else
    setCredentials storage
      {| serverName := entry;
         token := {| accessToken := default "" apiKey; tokenType := "ApiKey" |};
         updatedAt := now |}.

(** The body shared by the three [clear] functions. *)
Definition clear_entry (entry : string) (storage : S) : S :=
  (deleteCredentials storage entry).1.

Definition loadApiKey := load_entry DEFAULT_API_KEY_ENTRY.
Definition loadOpenAICompatApiKey := load_entry OPENAI_COMPAT_API_KEY_ENTRY.
Definition loadDeepSeekApiKey := load_entry DEEPSEEK_API_KEY_ENTRY.
Definition saveApiKey := save_entry DEFAULT_API_KEY_ENTRY.
Definition saveOpenAICompatApiKey := save_entry OPENAI_COMPAT_API_KEY_ENTRY.
Definition saveDeepSeekApiKey := save_entry DEEPSEEK_API_KEY_ENTRY.
Definition clearApiKey := clear_entry DEFAULT_API_KEY_ENTRY.
Definition clearDeepSeekApiKey := clear_entry DEEPSEEK_API_KEY_ENTRY.
Definition clearOpenAICompatApiKey := clear_entry OPENAI_COMPAT_API_KEY_ENTRY.

End WithStorage.

(** A store that keeps what it is given: a resolved [setCredentials] is
    read back under its name, a resolved [deleteCredentials] leaves nothing
    under the name, and neither touches another name. *)
Class KeepingStorage (S : Type) `{TokenStorage S} : Prop := {
  get_after_set : forall st c st',
    setCredentials st c = (st', Resolved tt) ->
    getCredentials st' (serverName c) = Resolved (Some c);
  get_after_set_other : forall st c st' o name,
    setCredentials st c = (st', o) -> name <> serverName c ->
    getCredentials st' name = getCredentials st name;
  get_after_delete : forall st name st',
    deleteCredentials st name = (st', Resolved tt) ->
    getCredentials st' name = Resolved None;
  get_after_delete_other : forall st name st' o other,
    deleteCredentials st name = (st', o) -> other <> name ->
    getCredentials st' other = getCredentials st other }.

(** A store in memory: a finite map from names to credentials. *)
#[global] Instance memory_storage : TokenStorage (gmap string OAuthCredentials) := {
  getCredentials st name := Resolved (st !! name);
  setCredentials st c := (<[serverName c := c]> st, Resolved tt);
  deleteCredentials st name := (delete name st, Resolved tt) }.

End CredentialStorage.

(** ** Vocabulary of the further properties *)

Module Invariants.

Import Stream Props.

(** The tool call has an id and a name. *)
Definition named_call (c : DeepSeekToolCall) : Prop :=
  tc_id c <> "" /\ fn_name (tc_function c) <> "".

(** The accumulator has pairwise distinct indices and named entries. *)
Definition well_formed (m : ToolCallMap) : Prop :=
  NoDup m.*1 /\ Forall (fun e => named_call e.2) m.

Definition index_lt (x y : Z * DeepSeekToolCall) : Prop := (x.1 < y.1)%Z.

(** A function-call part carries a non-empty id and a non-empty name. *)
Definition named_part (p : Part) : Prop :=
  match functionCall p with
  | Some fc =>
      (exists i, fc_id fc = Some i /\ i <> "")
      /\ (exists n, fc_name fc = Some n /\ n <> "")
  | None => True
  end.

Definition named_chunk (r : GenerateContentResponse) : Prop :=
  Forall named_part (chunk_parts r).

End Invariants.

Module Vocabulary.

Import Resolver Translator.

(** The environment variable that holds the key of the active variant. *)
Definition key_variable (env : Env) : string :=
  if String.eqb (getProviderFromEnv env) "openai_compatible"
  then "OPENAI_COMPAT_API_KEY" else "DEEPSEEK_API_KEY".

(** The environment variable that overrides the model of the active
    variant, and the model used when nothing else decides. *)
Definition model_variable (env : Env) : string :=
  if String.eqb (getProviderFromEnv env) "openai_compatible"
  then "OPENAI_COMPAT_MODEL" else "DEEPSEEK_MODEL".

Definition default_model (env : Env) : string :=
  if String.eqb (getProviderFromEnv env) "openai_compatible"
  then "gpt-4o-mini" else "deepseek-chat".

Definition is_system_message (m : DeepSeekMessage) : Prop :=
  exists c, m = MsgSystem c.

(** Every function response of the turn carries an identifier. *)
Definition responses_identified (c : Content) : Prop :=
  Forall (fun fr => is_Some (fr_id fr)) (functionResponses (parts c)).

Definition request_system_instruction (request : GenerateContentParameters)
    : option SystemInstruction :=
  match config request with
  | Some cfg => systemInstruction cfg
  | None => None
  end.

(** The names of the declarations that have one, in order. *)
Definition declared_names (fds : option (list FunctionDeclaration))
    : list string :=
  omap (fun fn => if Js.truthy (fd_name fn) then fd_name fn else None)
    (default [] fds).

End Vocabulary.

(** ** Inputs of the closed examples of the further properties *)

Module Examples.

(** Only the DeepSeek key is set: the provider is detected. *)
Definition detected_env : Resolver.Env :=
  <["DEEPSEEK_API_KEY" := "sk-test"]> ∅.

(** A request whose only turn answers the tool call [call_1]. *)
Definition answer_request : GenerateContentParameters :=
  {| model := Some "deepseek-chat";
     contents :=
       ContentsArray
         [ItemContent
            (Fixtures.user_turn [Fixtures.response_part Fixtures.call_1_response])];
     config := None |}.

Definition other_random_suffix (k : nat) : string := "beef" +:+ pretty k.

(** No text is the value of a member of [AuthType]. *)
Definition no_AuthType (value : string) : option AuthDialog.AuthType := None.

(** A key with white space around it. *)
Definition padded_key : string := " sk-1 ".

Definition padded_credentials : CredentialStorage.OAuthCredentials :=
  {| CredentialStorage.serverName := CredentialStorage.DEEPSEEK_API_KEY_ENTRY;
     CredentialStorage.token :=
       {| CredentialStorage.accessToken := padded_key;
          CredentialStorage.tokenType := "ApiKey" |};
     CredentialStorage.updatedAt := 0 |}.

(** An accumulator that holds one call at index 0. *)
Definition one_call : Stream.ToolCallMap :=
  Stream.merge_tool_call []
    (Fixtures.tool_delta 0 (Some "a") (Some "f") (Some "{")).

End Examples.

(** * Properties *)

(** ** JavaScript primitives *)

Lemma truthy_Some_iff (o : option string) :
  Js.truthy o = true <-> exists v, o = Some v /\ v <> "".
Proof.
  destruct o as [s|]; simpl.
  - rewrite negb_true_iff, String.eqb_neq. split.
    + intros Hs. exists s. auto.
    + intros (v & [= <-] & Hv). exact Hv.
  - split; [discriminate | intros (v & Hv & _); discriminate].
Qed.

Lemma truthy_false_iff (o : option string) :
  Js.truthy o = false <-> o = None \/ o = Some "".
Proof.
  destruct o as [s|]; simpl.
  - rewrite negb_false_iff, String.eqb_eq. split.
    + intros ->. now right.
    + intros [H|[= ->]]; [discriminate | reflexivity].
  - split; auto.
Qed.

Lemma or_else_truthy (a : option string) (b v : string) :
  a = Some v -> v <> "" -> Js.or_else a b = v.
Proof.
  intros -> Hv. unfold Js.or_else. simpl.
  apply String.eqb_neq in Hv. now rewrite Hv.
Qed.

Lemma or_else_falsy (a : option string) (b : string) :
  Js.truthy a = false -> Js.or_else a b = b.
Proof. intros H. unfold Js.or_else. now rewrite H. Qed.

Lemma toLowerCase_empty (s : string) : Js.toLowerCase s = "" <-> s = "".
Proof. destruct s; simpl; split; congruence. Qed.

(** ** Provider resolver *)

Section ResolverProps.
Import Resolver Props.

Lemma provider_empty_iff (env : Env) :
  getProviderFromEnv env = "" <-> selector_unset env.
Proof.
  unfold getProviderFromEnv, selector_unset.
  rewrite toLowerCase_empty.
  destruct (Js.truthy (env !! "GEMINI_CLI_PROVIDER")) eqn:Ht.
  - apply truthy_Some_iff in Ht as (v & Hv & Hne).
    rewrite (or_else_truthy _ _ v Hv Hne), Hv. split.
    + intros ->. now destruct Hne.
    + intros [H|[= ->]]; [discriminate | now destruct Hne].
  - rewrite (or_else_falsy _ _ Ht). apply truthy_false_iff in Ht. tauto.
Qed.

Lemma provider_of_selector (env : Env) (s : string) :
  env !! "GEMINI_CLI_PROVIDER" = Some s ->
  getProviderFromEnv env = Js.toLowerCase s.
Proof.
  intros Hs. unfold getProviderFromEnv. rewrite Hs.
  destruct (String.eqb_spec s "") as [->|Hne]; [reflexivity |].
  now rewrite (or_else_truthy _ _ s eq_refl Hne).
Qed.

Lemma names_this_family_iff (env : Env) :
  names_this_family env
  <-> getProviderFromEnv env = "deepseek"
      \/ getProviderFromEnv env = "openai_compatible".
Proof.
  unfold names_this_family. split.
  - intros (s & Hs & H). now rewrite (provider_of_selector env s Hs).
  - intros H. destruct (env !! "GEMINI_CLI_PROVIDER") as [s|] eqn:Hs.
    + exists s. now rewrite <- (provider_of_selector env s Hs).
    + assert (He : getProviderFromEnv env = "")
        by (apply provider_empty_iff; now left).
      rewrite He in H. destruct H; discriminate.
Qed.

(** C4. The enablement predicate is true exactly when the selector names
    this family (deepseek or openai_compatible, compared in lower case), or
    the selector is unset and the DeepSeek credential is present while the
    default family's credential is absent; it is false whenever the selector
    is set and names another family. *)
Theorem isDeepSeekEnabled_spec (env : Env) :
  (isDeepSeekEnabled env = true <->
     names_this_family env
     \/ (selector_unset env
         /\ credential_present env "DEEPSEEK_API_KEY"
         /\ ~ credential_present env "GEMINI_API_KEY"))
  /\ (~ selector_unset env -> ~ names_this_family env ->
      isDeepSeekEnabled env = false).
Proof.
  rewrite names_this_family_iff.
  unfold isDeepSeekEnabled, credential_present.
  rewrite <- !truthy_Some_iff, <- provider_empty_iff.
  destruct (String.eqb_spec (getProviderFromEnv env) "deepseek") as [Hd|Hd];
    [rewrite Hd; split; [split; auto | intros _ H; destruct H; auto] |].
  destruct (String.eqb_spec (getProviderFromEnv env) "openai_compatible")
    as [Ho|Ho];
    [rewrite Ho; split; [split; auto | intros _ H; destruct H; auto] |].
  destruct (String.eqb_spec (getProviderFromEnv env) "") as [He|He]; simpl.
  - split; [| intros H; now destruct H].
    rewrite andb_true_iff, negb_true_iff, <- not_true_iff_false. split.
    + intros [H1 H2]. right. auto.
    + intros [[H|H]|(_ & H1 & H2)]; [congruence | congruence | auto].
  - split; [| reflexivity].
    split; [discriminate |].
    intros [[H|H]|(H & _)]; congruence.
Qed.

End ResolverProps.

(** ** Request bodies *)

Section FacadeProps.
Import Resolver Translator Facade.

Variable JSON_stringify_part : Part -> string.
Variable JSON_stringify : json -> string.
Variable random_suffix : nat -> string.
Variable Number_ : string -> float.

(** The non-streaming body carries exactly the resolved override. *)
Lemma generateContent_body_temperature env k request userPromptId body :
  generateContent_body JSON_stringify_part JSON_stringify random_suffix Number_
    env k request userPromptId = inr body ->
  body_temperature body = resolveOpenAICompatTemperature Number_ env.
Proof.
  unfold generateContent_body.
  destruct (isDeepSeekEnabled env); cbn [negb]; [| discriminate].
  destruct (getDeepSeekApiKey env); [discriminate |].
  destruct (geminiRequestToDeepSeekMessages _ _ _ _ _) as [ms ts].
  intros [= <-]. reflexivity.
Qed.

(** The streaming body never carries a temperature. *)
Lemma generateContentStream_body_temperature env k request userPromptId body :
  generateContentStream_body JSON_stringify_part JSON_stringify random_suffix
    env k request userPromptId = inr body ->
  body_temperature body = None /\ body_stream body = Some true.
Proof.
  unfold generateContentStream_body.
  destruct (isDeepSeekEnabled env); cbn [negb]; [| discriminate].
  destruct (getDeepSeekApiKey env); [discriminate |].
  destruct (geminiRequestToDeepSeekMessages _ _ _ _ _) as [ms ts].
  intros [= <-]. split; reflexivity.
Qed.

(** Both bodies are otherwise built alike. *)
Lemma bodies_agree_up_to_temperature env k request userPromptId b :
  generateContent_body JSON_stringify_part JSON_stringify random_suffix Number_
    env k request userPromptId = inr b ->
  exists b',
    generateContentStream_body JSON_stringify_part JSON_stringify random_suffix
      env k request userPromptId = inr b'
    /\ body_model b' = body_model b
    /\ body_messages b' = body_messages b
    /\ body_tools b' = body_tools b
    /\ body_tool_choice b' = body_tool_choice b
    /\ body_user b' = body_user b.
Proof.
  unfold generateContent_body, generateContentStream_body.
  destruct (isDeepSeekEnabled env); cbn [negb]; [| discriminate].
  destruct (getDeepSeekApiKey env); [discriminate |].
  destruct (geminiRequestToDeepSeekMessages _ _ _ _ _) as [ms ts].
  intros [= <-]. eexists. split; [reflexivity |]. simpl. auto.
Qed.

(** The override, when the variant is the generic-compatible one and the
    configured text is a finite number. *)
Lemma resolveOpenAICompatTemperature_finite env raw :
  getProviderFromEnv env = "openai_compatible" ->
  env !! "OPENAI_COMPAT_TEMPERATURE" = Some raw -> raw <> "" ->
  PrimFloat.is_finite (Number_ raw) = true ->
  resolveOpenAICompatTemperature Number_ env = Some (Number_ raw).
Proof.
  intros Hp Hraw Hne Hfin. unfold resolveOpenAICompatTemperature.
  rewrite Hp, Hraw. simpl.
  apply String.eqb_neq in Hne. rewrite Hne. simpl. now rewrite Hfin.
Qed.

(** No override, and no error, when the text is absent or not finite. *)
Lemma resolveOpenAICompatTemperature_none env :
  Js.truthy (env !! "OPENAI_COMPAT_TEMPERATURE") = false
  \/ (exists raw, env !! "OPENAI_COMPAT_TEMPERATURE" = Some raw
                  /\ PrimFloat.is_finite (Number_ raw) = false) ->
  resolveOpenAICompatTemperature Number_ env = None.
Proof.
  unfold resolveOpenAICompatTemperature.
  destruct (negb _); [reflexivity |].
  intros [H|(raw & Hraw & Hfin)].
  - now rewrite H.
  - rewrite Hraw. simpl. destruct (negb _); [reflexivity |].
    now rewrite Hfin.
Qed.

End FacadeProps.

(** C6. With the generic-compatible variant selected and the temperature
    override set to 0.5, the body of generateContent carries temperature
    0.5, and the body of generateContentStream, built for the same request,
    carries no temperature. *)
Theorem generateContentStream_omits_temperature
    (k : nat) (request : GenerateContentParameters) (userPromptId : string) :
  (exists body,
      Facade.generateContent_body Fixtures.JSON_stringify_part
        Fixtures.JSON_stringify Fixtures.random_suffix Fixtures.Number_
        Fixtures.compat_env k request userPromptId = inr body
      /\ body_temperature body = Some 0.5%float)
  /\ (exists body,
      Facade.generateContentStream_body Fixtures.JSON_stringify_part
        Fixtures.JSON_stringify Fixtures.random_suffix
        Fixtures.compat_env k request userPromptId = inr body
      /\ body_temperature body = None
      /\ body_stream body = Some true).
Proof.
  assert (He : Resolver.isDeepSeekEnabled Fixtures.compat_env = true)
    by (vm_compute; reflexivity).
  assert (Hk : Resolver.getDeepSeekApiKey Fixtures.compat_env = inr "sk-test")
    by (vm_compute; reflexivity).
  assert (Ht : Resolver.resolveOpenAICompatTemperature Fixtures.Number_
                 Fixtures.compat_env = Some 0.5%float)
    by (vm_compute; reflexivity).
  unfold Facade.generateContent_body, Facade.generateContentStream_body.
  rewrite He, Hk, Ht. cbn [negb].
  destruct (Translator.geminiRequestToDeepSeekMessages _ _ _ _ _) as [ms ts].
  split; eexists; (split; [reflexivity |]); simpl; auto.
Qed.

(** ** Request translator *)

Section TranslatorProps.
Import Translator Stream Props.

Variable JSON_stringify_part : Part -> string.
Variable JSON_stringify : json -> string.
Variable random_suffix : nat -> string.

Local Abbreviation partToText := (partToText JSON_stringify_part).
Local Abbreviation contentPartsToText := (contentPartsToText JSON_stringify_part).
Local Abbreviation normalizeSystemInstruction :=
  (normalizeSystemInstruction JSON_stringify_part).
Local Abbreviation translate_content :=
  (translate_content JSON_stringify_part JSON_stringify random_suffix).
Local Abbreviation functionResponse_messages :=
  (functionResponse_messages JSON_stringify random_suffix).
Local Abbreviation geminiRequestToDeepSeekMessages :=
  (geminiRequestToDeepSeekMessages JSON_stringify_part JSON_stringify
     random_suffix).

Lemma map_partToText_text_part (ts : list string) :
  map partToText (map text_part ts) = ts.
Proof. induction ts as [|t ts IH]; simpl; [reflexivity | now rewrite IH]. Qed.

Lemma contentPartsToText_text_parts (ts : list string) :
  contentPartsToText (Some (map text_part ts)) = String.concat "" ts.
Proof.
  unfold Translator.contentPartsToText.
  destruct ts as [|t ts]; [reflexivity |].
  change (map text_part (t :: ts)) with (text_part t :: map text_part ts).
  now rewrite <- (map_partToText_text_part (t :: ts)).
Qed.

Lemma system_messages_empty_text :
  system_messages (Some "") = system_messages None.
Proof. reflexivity. Qed.

(** C5, as amended. For any text, given whole or cut into pieces, the
    object with a parts array, the single text part and the array of text
    parts normalize to that text; the plain string normalizes to it too
    when it is not empty, and to absent when it is empty; in every case the
    four shapes yield the same foreign message list. *)
Theorem system_instruction_shapes
    (ts : list string) (r : option string) (k : nat)
    (request : GenerateContentParameters) :
  let t := String.concat "" ts in
  let ps := map text_part ts in
  let as_object := SIContent {| role := r; parts := Some ps |} in
  normalizeSystemInstruction (Some as_object) = Some t
  /\ normalizeSystemInstruction (Some (SIPart (text_part t))) = Some t
  /\ normalizeSystemInstruction (Some (SIParts ps)) = Some t
  /\ normalizeSystemInstruction (Some (SIString t))
     = (if String.eqb t "" then None else Some t)
  /\ Forall
       (fun si =>
          geminiRequestToDeepSeekMessages k (with_system_instruction si request)
          = geminiRequestToDeepSeekMessages k
              (with_system_instruction (SIString t) request))
       [as_object; SIPart (text_part t); SIParts ps].
Proof.
  intros t ps as_object.
  assert (H1 : normalizeSystemInstruction (Some as_object) = Some t)
    by (subst as_object ps; cbn [Translator.normalizeSystemInstruction parts];
        now rewrite contentPartsToText_text_parts).
  assert (H2 : normalizeSystemInstruction (Some (SIPart (text_part t))) = Some t)
    by reflexivity.
  assert (H3 : normalizeSystemInstruction (Some (SIParts ps)) = Some t)
    by (subst ps; cbn [Translator.normalizeSystemInstruction];
        now rewrite contentPartsToText_text_parts).
  assert (H4 : normalizeSystemInstruction (Some (SIString t))
               = if String.eqb t "" then None else Some t) by reflexivity.
  repeat split; try assumption.
  assert (Hs : system_messages (Some t)
               = system_messages (normalizeSystemInstruction (Some (SIString t)))).
  { rewrite H4. destruct (String.eqb_spec t "") as [->|]; reflexivity. }
  repeat constructor;
    unfold Translator.geminiRequestToDeepSeekMessages, with_system_instruction;
    cbn [config systemInstruction tools contents];
    rewrite <- Hs; congruence.
Qed.

(** C5, the specification's sentence fails on the empty text: the plain
    string normalizes to absent, the single text part to the empty text. *)
Lemma system_instruction_empty_text_differs :
  Translator.normalizeSystemInstruction Fixtures.JSON_stringify_part
    (Some (SIString "")) = None
  /\ Translator.normalizeSystemInstruction Fixtures.JSON_stringify_part
       (Some (SIPart (text_part ""))) = Some "".
Proof. split; reflexivity. Qed.

End TranslatorProps.

Section TurnProps.
Import Translator Stream Props.

Variable JSON_stringify_part : Part -> string.
Variable JSON_stringify : json -> string.
Variable random_suffix : nat -> string.

Local Abbreviation contentPartsToText := (contentPartsToText JSON_stringify_part).
Local Abbreviation translate_content :=
  (translate_content JSON_stringify_part JSON_stringify random_suffix).
Local Abbreviation translate_contents :=
  (translate_contents JSON_stringify_part JSON_stringify random_suffix).
Local Abbreviation functionResponse_message :=
  (functionResponse_message JSON_stringify random_suffix).
Local Abbreviation functionResponse_messages :=
  (functionResponse_messages JSON_stringify random_suffix).

Lemma payload_output_spec (payload : json) :
  match payload_field_output payload with
  | Some (JStr s) => payload_output JSON_stringify payload = s
  | _ => payload_output JSON_stringify payload = JSON_stringify payload
  end.
Proof.
  destruct payload as [| | | | |fields]; try reflexivity.
  unfold payload_field_output, payload_output.
  destruct (get_field "output" fields) as [[]|]; reflexivity.
Qed.

Lemma functionResponse_message_spec (k : nat) (fr : FunctionResponse) :
  tool_message_for JSON_stringify random_suffix fr
    (functionResponse_message k fr).1.
Proof.
  unfold tool_message_for, Translator.functionResponse_message.
  pose proof (payload_output_spec (response_payload fr)) as Hp.
  destruct (fr_id fr) as [i|]; simpl; eexists _, _;
    (split; [reflexivity |]); split; eauto.
Qed.

Lemma functionResponse_messages_spec (frs : list FunctionResponse) (k : nat) :
  Forall2 (tool_message_for JSON_stringify random_suffix) frs
    (functionResponse_messages k frs).1.
Proof.
  revert k. induction frs as [|fr frs IH]; intros k; simpl; [constructor |].
  pose proof (functionResponse_message_spec k fr) as Hm.
  destruct (functionResponse_message k fr) as [m k1].
  specialize (IH k1).
  destruct (functionResponse_messages k1 frs) as [ms k2].
  constructor; assumption.
Qed.

Lemma translate_user_responses (k : nat) (c : Content) :
  role c = Some "user" -> functionResponses (parts c) <> [] ->
  translate_content k c
  = functionResponse_messages k (functionResponses (parts c)).
Proof.
  intros Hr Hne. unfold Translator.translate_content.
  rewrite Hr, bool_decide_eq_true_2 by reflexivity.
  destruct (functionResponses (parts c)); [now destruct Hne | reflexivity].
Qed.

(** C7. A user turn that carries function responses translates to one tool
    message per response, in order: its tool_call_id is the identifier of
    the response when present and otherwise the name (or tool), an
    underscore and a random suffix; its content is the string output field
    of the payload when there is one and otherwise the serialized payload. *)
Theorem functionResponse_turn_messages (k : nat) (c : Content) :
  role c = Some "user" -> functionResponses (parts c) <> [] ->
  Forall2 (tool_message_for JSON_stringify random_suffix)
    (functionResponses (parts c)) (translate_content k c).1.
Proof.
  intros Hr Hne. rewrite (translate_user_responses k c Hr Hne).
  apply functionResponse_messages_spec.
Qed.


Lemma translate_model_turn (k : nat) (ps : option (list Part)) :
  translate_content k {| role := Some "model"; parts := ps |}
  = (if String.eqb (contentPartsToText ps) "" then []
     else [MsgAssistant (contentPartsToText ps)], k).
Proof.
  unfold Translator.translate_content. cbn [role parts].
  rewrite bool_decide_eq_false_2 by discriminate.
  rewrite bool_decide_eq_true_2 by reflexivity.
  destruct (String.eqb _ ""); reflexivity.
Qed.





(** What the amended C8 leaves out.  A model turn that is a function call
    without text is not passed over: the fallback of [partToText]
    serializes the part, and the call goes back to the provider as the
    content of an assistant message, although the comment on the model
    branch says that prior function calls need not be sent back. *)
Lemma model_turn_function_call_echoed (k : nat) (fc : FunctionCall) :
  JSON_stringify_part (functionCall_part fc) <> "" ->
  translate_content k
    {| role := Some "model"; parts := Some [functionCall_part fc] |}
  = ([MsgAssistant (JSON_stringify_part (functionCall_part fc))], k).
Proof.
  intros Hne. rewrite translate_model_turn.
  unfold Translator.contentPartsToText, partToText, functionCall_part.
  cbn [map text String.concat].
  apply String.eqb_neq in Hne. unfold functionCall_part in Hne.
  now rewrite Hne.
Qed.

Lemma functionResponses_filter (ps : list Part) :
  functionResponses (Some (filter (fun p => is_Some (functionResponse p)) ps))
  = functionResponses (Some ps).
Proof.
  unfold functionResponses. cbn [default].
  induction ps as [|p ps IH]; [reflexivity |].
  destruct (functionResponse p) as [fr|] eqn:Hp.
  - rewrite filter_cons_True by (rewrite Hp; eauto).
    simpl. rewrite Hp. now f_equal.
  - rewrite filter_cons_False by (rewrite Hp; intros [x Hx]; discriminate).
    simpl. now rewrite Hp.
Qed.

Lemma Forall2_tool_messages (frs : list FunctionResponse)
    (ms : list DeepSeekMessage) :
  Forall2 (tool_message_for JSON_stringify random_suffix) frs ms ->
  Forall is_tool_message ms /\ length ms = length frs.
Proof.
  induction 1 as [|fr m frs ms (c & i & -> & _) _ [IH1 IH2]]; simpl.
  - split; [constructor | reflexivity].
  - split; [constructor; [exists c, i; reflexivity | exact IH1] | now rewrite IH2].
Qed.

(** C9. When a user turn has at least one function-response part, only
    tool messages are emitted, one per function response; no user message
    is produced and the other parts do not matter: the turn translates as
    the turn with every other part removed. *)
Theorem functionResponse_turn_discards_rest (k : nat) (c : Content) :
  role c = Some "user" -> functionResponses (parts c) <> [] ->
  Forall is_tool_message (translate_content k c).1
  /\ length (translate_content k c).1 = length (functionResponses (parts c))
  /\ translate_content k c
     = translate_content k
         {| role := Some "user";
            parts := Some (filter (fun p => is_Some (functionResponse p))
                             (default [] (parts c))) |}.
Proof.
  intros Hr Hne.
  pose proof (functionResponse_messages_spec (functionResponses (parts c)) k)
    as HF.
  rewrite <- (translate_user_responses k c Hr Hne) in HF.
  apply Forall2_tool_messages in HF as [H1 H2].
  split; [exact H1 |]. split; [exact H2 |].
  assert (Hf : functionResponses
                 (Some (filter (fun p => is_Some (functionResponse p))
                          (default [] (parts c))))
               = functionResponses (parts c)).
  { rewrite functionResponses_filter. now destruct (parts c). }
  rewrite (translate_user_responses k c Hr Hne).
  rewrite translate_user_responses; cbn [role parts];
    [now rewrite Hf | reflexivity | now rewrite Hf].
Qed.

End TurnProps.

(** C7, the example of the specification: the identifier call_1 with the
    payload whose output is 42. *)
Lemma functionResponse_turn_example :
  Forall2
    (Props.tool_message_for Fixtures.JSON_stringify Fixtures.random_suffix)
    [Fixtures.call_1_response] [MsgTool "42" "call_1"].
Proof.
  exact (functionResponse_turn_messages Fixtures.JSON_stringify_part
           Fixtures.JSON_stringify Fixtures.random_suffix 0
           (Fixtures.user_turn [Fixtures.response_part Fixtures.call_1_response])
           eq_refl ltac:(discriminate)).
Defined.


(** The function call that the model branch sends back: a model turn made
    of the call alone becomes an assistant message whose content is the
    serialized part. *)
Lemma model_turn_function_call_echoed_example :
  (Translator.translate_content Fixtures.JSON_stringify_part
     Fixtures.JSON_stringify Fixtures.random_suffix 0
     (Fixtures.model_turn [Stream.functionCall_part Fixtures.lookup_call])).1
  = [MsgAssistant
       ("{" +:+ Fixtures.quoted "functionCall" +:+ ":{"
        +:+ Fixtures.field "name" (Fixtures.quoted "lookup") +:+ "}}")].
Proof. reflexivity. Qed.


(** C9, on a turn that mixes a text part with a function response: the
    text is dropped and one tool message is emitted. *)
Lemma functionResponse_turn_mixed_example :
  let c := Fixtures.user_turn
             [Stream.text_part "see the result";
              Fixtures.response_part Fixtures.call_1_response] in
  let out := (Translator.translate_content Fixtures.JSON_stringify_part
                Fixtures.JSON_stringify Fixtures.random_suffix 0 c).1 in
  out = [MsgTool "42" "call_1"]
  /\ Forall Props.is_tool_message out
  /\ length out = 1.
Proof.
  split; [reflexivity |].
  pose proof (functionResponse_turn_discards_rest Fixtures.JSON_stringify_part
                Fixtures.JSON_stringify Fixtures.random_suffix 0
                (Fixtures.user_turn
                   [Stream.text_part "see the result";
                    Fixtures.response_part Fixtures.call_1_response])
                eq_refl ltac:(discriminate)) as (H1 & H2 & _).
  split; [exact H1 | exact H2].
Defined.

(** ** The tool-call accumulator *)

Section AccumulatorProps.
Import Stream Props.

Lemma Map_get_set_eq (idx : Z) (v : DeepSeekToolCall) (m : ToolCallMap) :
  Map_get idx (Map_set idx v m) = Some v.
Proof.
  induction m as [|[i w] m IH]; simpl.
  - now rewrite Z.eqb_refl.
  - destruct (Z.eqb i idx) eqn:E; simpl; now rewrite E.
Qed.

Lemma Map_get_set_ne (idx j : Z) (v : DeepSeekToolCall) (m : ToolCallMap) :
  j <> idx -> Map_get j (Map_set idx v m) = Map_get j m.
Proof.
  intros Hne. induction m as [|[i w] m IH]; simpl.
  - destruct (Z.eqb_spec idx j); [congruence | reflexivity].
  - destruct (Z.eqb_spec i idx) as [->|Hi]; simpl.
    + destruct (Z.eqb_spec idx j); [congruence | reflexivity].
    + now rewrite IH.
Qed.

Lemma Map_set_keys (idx : Z) (v : DeepSeekToolCall) (m : ToolCallMap) :
  forall j, j ∈ (Map_set idx v m).*1 <-> j = idx \/ j ∈ m.*1.
Proof.
  intros j. induction m as [|[i w] m IH]; simpl.
  - rewrite list_elem_of_singleton. rewrite elem_of_nil. tauto.
  - destruct (Z.eqb_spec i idx) as [->|Hi]; simpl;
      rewrite !elem_of_cons; [tauto | rewrite IH; tauto].
Qed.

(** The keys of the map stay pairwise distinct. *)
Lemma Map_set_NoDup (idx : Z) (v : DeepSeekToolCall) (m : ToolCallMap) :
  NoDup m.*1 -> NoDup (Map_set idx v m).*1.
Proof.
  induction m as [|[i w] m IH]; simpl; intros Hnd.
  - apply NoDup_singleton.
  - apply NoDup_cons in Hnd as [Hi Hnd].
    destruct (Z.eqb_spec i idx) as [->|Hne]; simpl.
    + apply NoDup_cons. auto.
    + apply NoDup_cons. split; [| auto].
      rewrite Map_set_keys. intros [->|H]; [congruence | auto].
Qed.

Lemma or_else_Some_empty (s : string) : Js.or_else (Some s) "" = s.
Proof.
  unfold Js.or_else. simpl.
  destruct (String.eqb_spec s ""); simpl; congruence.
Qed.

Lemma arguments_fragment_spec (tc : ToolCallDelta) :
  Js.or_else (d_function tc ≫= d_arguments) "" = arguments_fragment tc.
Proof.
  unfold arguments_fragment.
  destruct (d_function tc) as [f|]; [| reflexivity]. simpl.
  destruct (d_arguments f) as [a|]; [apply or_else_Some_empty | reflexivity].
Qed.

Lemma delta_name_spec (tc : ToolCallDelta) :
  d_function tc ≫= d_name = delta_name tc.
Proof. unfold delta_name. now destruct (d_function tc). Qed.

(** What one merge does to the entry of its index and to the others. *)
Lemma merge_tool_call_lookup
    (m : ToolCallMap) (tc : ToolCallDelta) (e : DeepSeekToolCall) :
  let idx := default 0%Z (d_index tc) in
  Map_get idx m = Some e ->
  exists e',
    Map_get idx (merge_tool_call m tc) = Some e'
    /\ tc_id e' = Js.or_else (d_id tc) (Js.or_else (Some (tc_id e))
                                          ("call_" +:+ Js.of_int idx))
    /\ fn_name (tc_function e')
       = Js.or_else (delta_name tc)
           (Js.or_else (Some (fn_name (tc_function e))) "tool")
    /\ fn_arguments (tc_function e')
       = fn_arguments (tc_function e) +:+ arguments_fragment tc.
Proof.
  intros idx He. unfold merge_tool_call. fold idx. rewrite He.
  eexists. split; [apply Map_get_set_eq |].
  cbn [tc_id tc_function fn_name fn_arguments fmap option_fmap option_map compose].
  now rewrite delta_name_spec, arguments_fragment_spec, !or_else_Some_empty.
Qed.

Lemma or_else_nonempty (a : option string) (b : string) :
  b <> "" -> Js.or_else a b <> "".
Proof.
  intros Hb. unfold Js.or_else. destruct a as [s|]; simpl; [| exact Hb].
  destruct (String.eqb_spec s ""); simpl; assumption.
Qed.

(** After a merge the entry of the index has an id and a name. *)
Lemma merge_tool_call_named (m : ToolCallMap) (tc : ToolCallDelta) :
  exists e',
    Map_get (default 0%Z (d_index tc)) (merge_tool_call m tc) = Some e'
    /\ tc_id e' <> "" /\ fn_name (tc_function e') <> "".
Proof.
  unfold merge_tool_call. eexists. split; [apply Map_get_set_eq |].
  cbn [tc_id tc_function fn_name].
  split; repeat apply or_else_nonempty; discriminate.
Qed.

Lemma merge_tool_call_other (m : ToolCallMap) (tc : ToolCallDelta) (j : Z) :
  j <> default 0%Z (d_index tc) ->
  Map_get j (merge_tool_call m tc) = Map_get j m.
Proof. intros Hj. unfold merge_tool_call. now apply Map_get_set_ne. Qed.

(** C1, as amended. Merging a delta into an index that already has an
    entry: a delta that carries no id, or an empty one, leaves a set id
    unchanged, and a delta that carries a non-empty id replaces it; the same
    holds for the name; the arguments buffer becomes the previous buffer
    followed by the fragment of the delta; every other index is untouched. *)
Theorem merge_tool_call_entry
    (m : ToolCallMap) (tc : ToolCallDelta) (e : DeepSeekToolCall) :
  let idx := default 0%Z (d_index tc) in
  Map_get idx m = Some e ->
  exists e',
    Map_get idx (merge_tool_call m tc) = Some e'
    /\ (Js.truthy (d_id tc) = false -> tc_id e <> "" -> tc_id e' = tc_id e)
    /\ (forall i, d_id tc = Some i -> i <> "" -> tc_id e' = i)
    /\ (Js.truthy (delta_name tc) = false -> fn_name (tc_function e) <> "" ->
        fn_name (tc_function e') = fn_name (tc_function e))
    /\ (forall n, delta_name tc = Some n -> n <> "" ->
        fn_name (tc_function e') = n)
    /\ fn_arguments (tc_function e')
       = fn_arguments (tc_function e) +:+ arguments_fragment tc
    /\ (forall j, j <> idx ->
        Map_get j (merge_tool_call m tc) = Map_get j m).
Proof.
  intros idx He.
  destruct (merge_tool_call_lookup m tc e He) as (e' & H1 & Hi & Hn & Ha).
  exists e'. split; [exact H1 |]. rewrite Hi, Hn.
  repeat split.
  - intros Hf Hne. rewrite (or_else_falsy _ _ Hf).
    now apply or_else_truthy.
  - intros i Hd Hne. now apply or_else_truthy.
  - intros Hf Hne. rewrite (or_else_falsy _ _ Hf).
    now apply or_else_truthy.
  - intros n Hd Hne. now apply or_else_truthy.
  - exact Ha.
  - intros j Hj. now apply merge_tool_call_other.
Qed.

End AccumulatorProps.

Section AppendOnly.
Import Stream Props.

Lemma string_append_assoc (a b c : string) : (a +:+ b) +:+ c = a +:+ (b +:+ c).
Proof.
  induction a as [|x a IH]; [reflexivity |].
  change (String x ((a +:+ b) +:+ c) = String x (a +:+ (b +:+ c))).
  now rewrite IH.
Qed.

Lemma string_append_empty_r (a : string) : a +:+ "" = a.
Proof.
  induction a as [|x a IH]; [reflexivity |].
  change (String x (a +:+ "") = String x a). now rewrite IH.
Qed.

Lemma merge_tool_call_arguments (m : ToolCallMap) (tc : ToolCallDelta)
    (j : Z) (e : DeepSeekToolCall) :
  Map_get j m = Some e ->
  exists e' suffix,
    Map_get j (merge_tool_call m tc) = Some e'
    /\ fn_arguments (tc_function e')
       = fn_arguments (tc_function e) +:+ suffix.
Proof.
  intros He. destruct (Z.eq_dec j (default 0%Z (d_index tc))) as [->|Hne].
  - destruct (merge_tool_call_lookup m tc e He) as (e' & H1 & _ & _ & H2).
    exists e', (arguments_fragment tc). auto.
  - exists e, "". split.
    + now rewrite merge_tool_call_other.
    + now rewrite string_append_empty_r.
Qed.

(** Over any run of deltas the arguments buffer of an index only grows at
    its end. *)
Lemma arguments_append_only (tcs : list ToolCallDelta) (m : ToolCallMap)
    (j : Z) (e : DeepSeekToolCall) :
  Map_get j m = Some e ->
  exists e' suffix,
    Map_get j (foldl merge_tool_call m tcs) = Some e'
    /\ fn_arguments (tc_function e')
       = fn_arguments (tc_function e) +:+ suffix.
Proof.
  revert m e. induction tcs as [|tc tcs IH]; intros m e He; simpl.
  - exists e, "". split; [exact He | now rewrite string_append_empty_r].
  - destruct (merge_tool_call_arguments m tc j e He) as (e1 & s1 & H1 & Ha1).
    destruct (IH _ _ H1) as (e2 & s2 & H2 & Ha2).
    exists e2, (s1 +:+ s2). split; [exact H2 |].
    now rewrite Ha2, Ha1, string_append_assoc.
Qed.

End AppendOnly.

(** C1, on an index that holds the id a and the name f: a second delta
    for the index keeps the entry in place and appends its fragment. *)
Lemma merge_tool_call_entry_example :
  let m := Stream.merge_tool_call []
             (Fixtures.tool_delta 0 (Some "a") (Some "f") (Some "{")) in
  let tc := Fixtures.tool_delta 0 None None (Some "}") in
  exists e',
    Stream.Map_get 0 (Stream.merge_tool_call m tc) = Some e'
    /\ tc_id e' = "a"
    /\ fn_name (tc_function e') = "f"
    /\ fn_arguments (tc_function e') = "{}".
Proof.
  destruct (merge_tool_call_entry
              (Stream.merge_tool_call []
                 (Fixtures.tool_delta 0 (Some "a") (Some "f") (Some "{")))
              (Fixtures.tool_delta 0 None None (Some "}"))
              {| tc_id := "a";
                 tc_function := {| fn_name := "f"; fn_arguments := "{" |} |}
              eq_refl)
    as (e' & H1 & H2 & _ & H3 & _ & H4 & _).
  exists e'. split; [exact H1 |].
  split; [apply H2; [reflexivity | discriminate] |].
  split; [apply H3; [reflexivity | discriminate] | exact H4].
Defined.

(** C1, the specification's invariant fails: a later delta for the same
    index that carries an id and a name overwrites both. *)
Lemma later_delta_overwrites_id_and_name :
  let d1 := Fixtures.tool_delta 0 (Some "a") (Some "f") (Some "{") in
  let d2 := Fixtures.tool_delta 0 (Some "b") (Some "g") (Some "}") in
  Stream.Map_get 0 (Stream.merge_tool_call [] d1)
  = Some {| tc_id := "a";
            tc_function := {| fn_name := "f"; fn_arguments := "{" |} |}
  /\ Stream.Map_get 0 (Stream.merge_tool_call (Stream.merge_tool_call [] d1) d2)
     = Some {| tc_id := "b";
               tc_function := {| fn_name := "g"; fn_arguments := "{}" |} |}.
Proof. split; reflexivity. Qed.

(** ** Flushing the accumulator *)

Section SortProps.
Import Stream Props.

Lemma sort_insert_perm {A : Type} (compare : A -> A -> Z) (x : A) (l : list A) :
  sort_insert compare x l ≡ₚ x :: l.
Proof.
  induction l as [|y l IH]; simpl; [reflexivity |].
  destruct (compare x y <=? 0)%Z; [reflexivity |].
  rewrite IH. apply Permutation_swap.
Qed.

Lemma Array_sort_perm {A : Type} (compare : A -> A -> Z) (l : list A) :
  Array_sort compare l ≡ₚ l.
Proof.
  induction l as [|x l IH]; simpl; [reflexivity |].
  now rewrite sort_insert_perm, IH.
Qed.

#[local] Instance index_le_trans : Transitive index_le.
Proof. intros x y z. unfold index_le. lia. Qed.

Lemma sort_insert_HdRel (y x : Z * DeepSeekToolCall) (l : ToolCallMap) :
  HdRel index_le y l -> index_le y x ->
  HdRel index_le y (sort_insert compare_index x l).
Proof.
  intros Hl Hx. destruct l as [|z l]; simpl; [now constructor |].
  destruct (compare_index x z <=? 0)%Z; constructor; [exact Hx |].
  now inversion Hl.
Qed.

Lemma sort_insert_sorted (x : Z * DeepSeekToolCall) (l : ToolCallMap) :
  Sorted index_le l -> Sorted index_le (sort_insert compare_index x l).
Proof.
  induction 1 as [|y l Hs IH Hd]; simpl; [repeat constructor |].
  destruct (Z.leb_spec (compare_index x y) 0) as [Hle|Hgt].
  - constructor; [now constructor |].
    constructor. unfold index_le, compare_index in *. lia.
  - constructor; [exact IH |].
    apply sort_insert_HdRel; [exact Hd |].
    unfold index_le, compare_index in *. lia.
Qed.

Lemma Array_sort_sorted (m : ToolCallMap) :
  StronglySorted index_le (Array_sort compare_index m).
Proof.
  apply Sorted_StronglySorted; [apply index_le_trans |].
  induction m as [|x m IH]; simpl; [constructor |].
  now apply sort_insert_sorted.
Qed.

End SortProps.

(** ** Line buffering *)

Section BufferProps.
Import Stream Props.

Lemma split_lines_no_LF (s : string) :
  contains_LF s = false -> Js.split_lines s = [s].
Proof.
  induction s as [|c r IH]; [reflexivity |].
  cbn [contains_LF Js.split_lines]. intros H.
  apply orb_false_iff in H as [Hc Hr]. rewrite Hc.
  destruct r as [|d r']; [reflexivity |].
  assert (Hd : Ascii.eqb d Js.LF = false).
  { cbn [contains_LF] in Hr. now apply orb_false_iff in Hr as [Hd _]. }
  rewrite Hd, andb_false_r. now rewrite (IH Hr).
Qed.

Lemma split_lines_pieces_aux (n : nat) :
  forall s, String.length s <= n ->
  Forall (fun l => contains_LF l = false) (Js.split_lines s).
Proof.
  induction n as [|n IH]; intros s Hn.
  - destruct s; [repeat constructor | simpl in Hn; lia].
  - destruct s as [|c r]; [repeat constructor |].
    simpl in Hn. cbn [Js.split_lines].
    destruct (Ascii.eqb c Js.LF) eqn:Hc.
    + constructor; [reflexivity | apply IH; lia].
    + destruct r as [|d r'].
      * repeat constructor. cbn [contains_LF]. now rewrite Hc.
      * destruct (Ascii.eqb c Js.CR && Ascii.eqb d Js.LF).
        -- constructor; [reflexivity |]. apply IH. simpl in Hn. lia.
        -- assert (Hr : Forall (fun l => contains_LF l = false)
                           (Js.split_lines (String d r'))) by (apply IH; lia).
           destruct (Js.split_lines (String d r')) as [|h t].
           ++ repeat constructor. cbn [contains_LF]. now rewrite Hc.
           ++ apply Forall_cons in Hr as [Hh Ht]. constructor; [| exact Ht].
              cbn [contains_LF]. now rewrite Hc, Hh.
Qed.

Lemma split_lines_pieces (s : string) :
  Forall (fun l => contains_LF l = false) (Js.split_lines s).
Proof. now apply (split_lines_pieces_aux (String.length s)). Qed.

(** The text kept for the next read never holds a line feed, so the lines
    taken from it alone are none. *)
Lemma take_lines_residual (s : string) :
  contains_LF (take_lines s).2 = false.
Proof.
  unfold take_lines. cbn [snd].
  pose proof (split_lines_pieces s) as HF.
  destruct (last (Js.split_lines s)) as [l|] eqn:Hl; [| reflexivity].
  cbn [default]. rewrite Forall_forall in HF. apply HF.
  apply last_Some in Hl as [l' ->]. apply elem_of_app. right.
  apply list_elem_of_singleton. reflexivity.
Qed.

Lemma take_lines_no_LF (s : string) :
  contains_LF s = false -> take_lines s = ([], s).
Proof.
  intros H. unfold take_lines. now rewrite (split_lines_no_LF s H).
Qed.

End BufferProps.

(** ** The streaming engine *)

Section EngineProps.
Import Stream Props.

Variable JSON_parse_chunk : string -> option DeepSeekChatCompletionStreamChunk.
Variable JSON_parse : string -> option json.

Local Abbreviation flushToolCallsIfAny := (flushToolCallsIfAny JSON_parse).
Local Abbreviation createGeminiStreamToolCallsChunk :=
  (createGeminiStreamToolCallsChunk JSON_parse).
Local Abbreviation process_chunk := (process_chunk JSON_parse).
Local Abbreviation process_lines := (process_lines JSON_parse_chunk JSON_parse).
Local Abbreviation gen_loop := (gen_loop JSON_parse_chunk JSON_parse).

Lemma flush_as_sorted (m : ToolCallMap) :
  flushToolCallsIfAny m
  = match Array_sort compare_index m with
    | [] => []
    | es => [createGeminiStreamToolCallsChunk (map snd es)]
    end.
Proof.
  unfold Stream.flushToolCallsIfAny, sorted_calls.
  now destruct (Array_sort compare_index m).
Qed.

Lemma flush_nonempty (m : ToolCallMap) :
  m <> [] ->
  exists chunk,
    flushToolCallsIfAny m = [chunk] /\ length (chunk_parts chunk) = length m.
Proof.
  intros Hne. rewrite flush_as_sorted.
  pose proof (Array_sort_perm compare_index m) as Hp.
  destruct (Array_sort compare_index m) as [|e es] eqn:Hs.
  - symmetry in Hp. apply Permutation_nil_r in Hp. contradiction.
  - eexists. split; [reflexivity |].
    unfold Stream.createGeminiStreamToolCallsChunk, model_chunk, chunk_parts.
    cbn [candidates cand_content parts default id].
    now rewrite !length_map, Hp.
Qed.

(** The chunks of one parsed frame: the text chunk of its content delta,
    then, on a finish signal, the flush of the accumulator after merging
    the tool-call deltas of the frame. *)
Lemma process_chunk_shape (m : ToolCallMap)
    (chunk : DeepSeekChatCompletionStreamChunk) :
  let m' := foldl merge_tool_call m (frame_tool_calls chunk) in
  process_chunk m chunk
  = (text_chunks_of (content_delta chunk)
     ++ (if Js.truthy (finish_signal chunk) then flushToolCallsIfAny m' else []),
     m').
Proof.
  unfold Stream.process_chunk, frame_tool_calls, content_delta, finish_signal,
    text_chunks_of.
  destruct (choices chunk) as [[|choice cs]|]; try reflexivity.
  cbn [mbind option_bind head].
  destruct (c_delta choice) as [delta|]; [| reflexivity].
  cbn [mbind option_bind].
  destruct (d_tool_calls delta) as [tcs|];
    destruct (d_content delta) as [t|]; cbn [Js.truthy default];
    try destruct (String.eqb t ""); reflexivity.
Qed.

Lemma sentinel_flushes (m : ToolCallMap) (line : string) (rest : list string) :
  line_data line = Some "[DONE]" ->
  process_lines m (line :: rest) = (flushToolCallsIfAny m, m, true).
Proof. intros H. cbn [Stream.process_lines]. now rewrite H. Qed.

Lemma exhaustion_flushes (m : ToolCallMap) (buffer : string) :
  contains_LF buffer = false -> gen_loop [] buffer m = flushToolCallsIfAny m.
Proof.
  intros H. cbn [Stream.gen_loop]. now rewrite (take_lines_no_LF buffer H).
Qed.

Lemma two_calls_flushed_in_index_order (tc1 tc0 : ToolCallDelta) :
  d_index tc1 = Some 1%Z -> d_index tc0 = Some 0%Z ->
  let m := merge_tool_call (merge_tool_call [] tc1) tc0 in
  exists c0 c1,
    m = [(1%Z, c1); (0%Z, c0)]
    /\ flushToolCallsIfAny m = [createGeminiStreamToolCallsChunk [c0; c1]].
Proof.
  intros H1 H0. unfold merge_tool_call. rewrite H1, H0.
  cbn [default Map_get Map_set Z.eqb]. eexists _, _. split; reflexivity.
Qed.

(** C2. Every flush sorts the accumulator entries by index ascending and
    emits nothing when the accumulator is empty, and otherwise exactly one
    chunk with one part per accumulated tool call; the terminal sentinel, a
    finish signal in a frame and the exhaustion of the transport each
    perform this flush; two tool calls merged at indices 1 then 0 are
    flushed in the order 0, 1. *)
Theorem flush_sorted_single_chunk (m : ToolCallMap) :
  (exists es,
      es ≡ₚ m
      /\ StronglySorted index_le es
      /\ flushToolCallsIfAny m
         = match es with
           | [] => []
           | _ => [createGeminiStreamToolCallsChunk (map snd es)]
           end)
  /\ (m = [] -> flushToolCallsIfAny m = [])
  /\ (m <> [] ->
      exists chunk,
        flushToolCallsIfAny m = [chunk]
        /\ length (chunk_parts chunk) = length m)
  /\ (forall line rest,
        line_data line = Some "[DONE]" ->
        process_lines m (line :: rest) = (flushToolCallsIfAny m, m, true))
  /\ (forall chunk,
        Js.truthy (finish_signal chunk) = true ->
        let m' := foldl merge_tool_call m (frame_tool_calls chunk) in
        process_chunk m chunk
        = (text_chunks_of (content_delta chunk) ++ flushToolCallsIfAny m', m'))
  /\ (forall buffer,
        contains_LF buffer = false ->
        gen_loop [] buffer m = flushToolCallsIfAny m)
  /\ (forall tc1 tc0,
        d_index tc1 = Some 1%Z -> d_index tc0 = Some 0%Z ->
        exists c0 c1,
          merge_tool_call (merge_tool_call [] tc1) tc0 = [(1%Z, c1); (0%Z, c0)]
          /\ flushToolCallsIfAny (merge_tool_call (merge_tool_call [] tc1) tc0)
             = [createGeminiStreamToolCallsChunk [c0; c1]]).
Proof.
  split.
  { exists (Array_sort compare_index m).
    split; [apply Array_sort_perm |]. split; [apply Array_sort_sorted |].
    rewrite flush_as_sorted. now destruct (Array_sort compare_index m). }
  split; [intros ->; reflexivity |].
  split; [apply flush_nonempty |].
  split; [intros line rest; apply sentinel_flushes |].
  split.
  { intros chunk Hf m'. rewrite process_chunk_shape. fold m'. now rewrite Hf. }
  split; [intros buffer; apply exhaustion_flushes |].
  intros tc1 tc0. apply two_calls_flushed_in_index_order.
Qed.

Lemma process_lines_skip (m : ToolCallMap) (line : string) (rest : list string)
    (data : string) :
  line_data line = Some data -> JSON_parse_chunk data = None ->
  data <> "[DONE]" ->
  process_lines m (line :: rest) = process_lines m rest.
Proof.
  intros Hd Hp Hs. cbn [Stream.process_lines]. rewrite Hd, Hp.
  apply String.eqb_neq in Hs. rewrite Hs.
  now destruct (String.eqb data "").
Qed.

(** C3. A line whose payload is neither empty nor the sentinel and does
    not parse is skipped, and the sequence goes on.  Wherever the line
    stands among the lines of a read, the chunks yielded, the accumulator
    and the termination of the sequence are those of the same lines without
    it; alone, it yields no chunk, leaves the accumulator as it is and does
    not end the sequence; and a frame that parses, on the line after it,
    still yields its chunks: the text chunk of its content delta, then the
    flush its finish signal asks for, ahead of the chunks of the lines that
    follow, with its tool-call deltas merged into the accumulator. *)
Theorem malformed_frame_skipped
    (m : ToolCallMap) (before after : list string) (line data : string) :
  line_data line = Some data ->
  data <> "" -> data <> "[DONE]" ->
  JSON_parse_chunk data = None ->
  process_lines m (before ++ line :: after) = process_lines m (before ++ after)
  /\ process_lines m [line] = ([], m, false)
  /\ forall (next payload : string)
       (chunk : DeepSeekChatCompletionStreamChunk) (rest : list string),
       line_data next = Some payload ->
       payload <> "" -> payload <> "[DONE]" ->
       JSON_parse_chunk payload = Some chunk ->
       let m' := foldl merge_tool_call m (frame_tool_calls chunk) in
       process_lines m (line :: next :: rest)
       = (text_chunks_of (content_delta chunk)
          ++ (if Js.truthy (finish_signal chunk)
              then flushToolCallsIfAny m' else [])
          ++ (process_lines m' rest).1.1,
          (process_lines m' rest).1.2,
          (process_lines m' rest).2).
Proof.
  intros Hd _ Hs Hp. split; [| split].
  - revert m.
    induction before as [|l before IH]; intros m.
    + now apply (process_lines_skip m line after data).
    + cbn [app Stream.process_lines].
      destruct (line_data l) as [d|]; [| apply IH].
      destruct (String.eqb d ""); [apply IH |].
      destruct (String.eqb d "[DONE]"); [reflexivity |].
      destruct (JSON_parse_chunk d) as [chunk|]; [| apply IH].
      destruct (Stream.process_chunk JSON_parse m chunk) as [out m1].
      now rewrite IH.
  - now rewrite (process_lines_skip m line [] data).
  - intros next payload chunk rest Hn He Hn' Hc m'.
    rewrite (process_lines_skip m line (next :: rest) data) by assumption.
    cbn [Stream.process_lines]. rewrite Hn, Hc.
    apply String.eqb_neq in He, Hn'. rewrite He, Hn'.
    rewrite process_chunk_shape. fold m'.
    destruct (Stream.process_lines JSON_parse_chunk JSON_parse m' rest)
      as [[out' m''] returned].
    cbn [fst snd]. now rewrite app_assoc.
Qed.

Lemma toolCalls_chunk_no_text (calls : list DeepSeekToolCall) :
  ~ carries_text (createGeminiStreamToolCallsChunk calls).
Proof.
  intros (p & Hp & Ht).
  unfold Stream.createGeminiStreamToolCallsChunk, model_chunk, chunk_parts in Hp.
  cbn [candidates cand_content parts default id] in Hp.
  apply list_elem_of_fmap in Hp as (tc & -> & _).
  destruct Ht as [t Ht]. discriminate.
Qed.

Lemma flush_no_text (m : ToolCallMap) (r : GenerateContentResponse) :
  r ∈ flushToolCallsIfAny m -> ~ carries_text r.
Proof.
  rewrite flush_as_sorted.
  destruct (Array_sort compare_index m); [now rewrite elem_of_nil |].
  rewrite list_elem_of_singleton. intros ->. apply toolCalls_chunk_no_text.
Qed.

Lemma text_chunk_carries_text (t : string) :
  carries_text (createGeminiStreamTextChunk t).
Proof.
  exists (text_part t). split; [| now eexists].
  unfold createGeminiStreamTextChunk, model_chunk, chunk_parts.
  cbn [candidates cand_content parts default id].
  apply list_elem_of_singleton. reflexivity.
Qed.

(** C10. Among the chunks yielded for a frame, the ones that carry text
    are exactly the text chunk of its content delta when that delta is a
    non-empty string; a frame whose content delta is the empty string, or
    absent, yields no text chunk. *)
Theorem text_chunk_iff_nonempty_content
    (m : ToolCallMap) (chunk : DeepSeekChatCompletionStreamChunk)
    (r : GenerateContentResponse) :
  (r ∈ (process_chunk m chunk).1 /\ carries_text r)
  <-> exists t,
        content_delta chunk = Some t /\ t <> ""
        /\ r = createGeminiStreamTextChunk t.
Proof.
  rewrite process_chunk_shape. cbn [fst]. rewrite elem_of_app. split.
  - intros [[Hr|Hr] Ht].
    + unfold text_chunks_of in Hr.
      destruct (content_delta chunk) as [t|]; [| now apply elem_of_nil in Hr].
      destruct (String.eqb_spec t ""); [now apply elem_of_nil in Hr |].
      apply list_elem_of_singleton in Hr. eauto.
    + destruct (Js.truthy (finish_signal chunk));
        [now apply flush_no_text in Hr | now apply elem_of_nil in Hr].
  - intros (t & Hc & Hne & ->). split; [| apply text_chunk_carries_text].
    left. unfold text_chunks_of. rewrite Hc.
    apply String.eqb_neq in Hne. rewrite Hne.
    apply list_elem_of_singleton. reflexivity.
Qed.

End EngineProps.

(** ** Closed runs of the engine *)

Section Runs.
Import Stream Fixtures.

Local Abbreviation run := (gen Fixtures.JSON_parse_chunk Fixtures.JSON_parse).

(** C3, on the lines of one read: the malformed line changes nothing where
    it stands between two frames, and the frame on the line after it still
    yields its text chunk. *)
Lemma malformed_frame_skipped_example :
  process_lines Fixtures.JSON_parse_chunk Fixtures.JSON_parse []
    ([Fixtures.hello_line] ++ "data: {oops" :: [Fixtures.hello_line])
  = process_lines Fixtures.JSON_parse_chunk Fixtures.JSON_parse []
      ([Fixtures.hello_line] ++ [Fixtures.hello_line])
  /\ process_lines Fixtures.JSON_parse_chunk Fixtures.JSON_parse []
       ["data: {oops"]
     = ([], [], false)
  /\ process_lines Fixtures.JSON_parse_chunk Fixtures.JSON_parse []
       ["data: {oops"; Fixtures.hello_line; Fixtures.call0_line]
     = ([createGeminiStreamTextChunk "hello";
         createGeminiStreamToolCallsChunk Fixtures.JSON_parse
           [Build_DeepSeekToolCall "a" (Build_DeepSeekFunction "f" "{}")]],
        [(0%Z, Build_DeepSeekToolCall "a" (Build_DeepSeekFunction "f" "{}"))],
        false).
Proof.
  destruct (malformed_frame_skipped Fixtures.JSON_parse_chunk Fixtures.JSON_parse
              [] [Fixtures.hello_line] [Fixtures.hello_line] "data: {oops" "{oops"
              eq_refl ltac:(discriminate) ltac:(discriminate) eq_refl)
    as [Hskip [Halone Hnext]].
  split; [exact Hskip | split; [exact Halone |]].
  exact (Hnext Fixtures.hello_line Fixtures.hello_payload
           (Fixtures.frame (Some "hello") None None) [Fixtures.call0_line]
           eq_refl ltac:(discriminate) ltac:(discriminate) eq_refl).
Defined.

(** A malformed frame between two valid ones, split across two reads: both
    valid frames yield their chunk and the sequence ends normally. *)
Lemma run_with_malformed_frame :
  run [Fixtures.hello_line +:+ nl +:+ "data: {oo";
       "ps" +:+ nl +:+ Fixtures.hello_line +:+ nl +:+ "data: [DONE]" +:+ nl]
  = [createGeminiStreamTextChunk "hello"; createGeminiStreamTextChunk "hello"].
Proof. vm_compute. reflexivity. Qed.

(** Tool calls that arrive at index 1 and then at index 0 are flushed in
    the order 0, 1, on the finish signal and again on the sentinel. *)
Lemma run_out_of_order_tool_calls :
  let call0 := {| tc_id := "a";
                  tc_function := {| fn_name := "f"; fn_arguments := "{}" |} |} in
  let call1 := {| tc_id := "b";
                  tc_function := {| fn_name := "g"; fn_arguments := "{}" |} |} in
  let flushed :=
    createGeminiStreamToolCallsChunk Fixtures.JSON_parse [call0; call1] in
  run [Fixtures.call1_line +:+ nl; Fixtures.call0_line +:+ nl; "data: [DONE]" +:+ nl]
  = [flushed; flushed].
Proof. vm_compute. reflexivity. Qed.

(** The same frames without sentinel: the exhaustion of the transport
    flushes too. *)
Lemma run_without_sentinel :
  run [Fixtures.call1_line +:+ nl]
  = [createGeminiStreamToolCallsChunk Fixtures.JSON_parse
       [ {| tc_id := "b";
            tc_function := {| fn_name := "g"; fn_arguments := "{}" |} |} ]].
Proof. vm_compute. reflexivity. Qed.

(** A frame whose content delta is the empty string yields nothing. *)
Lemma run_empty_content : run [Fixtures.empty_line +:+ nl] = [].
Proof. vm_compute. reflexivity. Qed.

End Runs.

(** * Further properties *)

(** ** Line buffering across reads *)

Section SplitProps.
Import Stream Props.

Lemma append_cons (c : ascii) (r b : string) :
  String c r +:+ b = String c (r +:+ b).
Proof. reflexivity. Qed.

Lemma split_lines_nonempty (s : string) : Js.split_lines s <> [].
Proof.
  destruct s as [|c r]; [discriminate |]. cbn [Js.split_lines].
  destruct (Ascii.eqb c Js.LF); [discriminate |].
  destruct r as [|d r']; [discriminate |].
  destruct (Ascii.eqb c Js.CR && Ascii.eqb d Js.LF); [discriminate |].
  destruct (Js.split_lines (String d r')); discriminate.
Qed.

Lemma split_lines_cons_other (c : ascii) (r : string) :
  Ascii.eqb c Js.LF = false ->
  (forall r', r = String Js.LF r' -> Ascii.eqb c Js.CR = false) ->
  Js.split_lines (String c r)
  = match Js.split_lines r with
    | h :: t => String c h :: t
    | [] => [String c EmptyString]
    end.
Proof.
  intros Hc Hr. cbn [Js.split_lines]. rewrite Hc.
  destruct r as [|d r']; [reflexivity |].
  destruct (Ascii.eqb_spec d Js.LF) as [->|Hd].
  - rewrite (Hr r' eq_refl). reflexivity.
  - rewrite andb_false_r. reflexivity.
Qed.

Lemma split_lines_single (s h : string) : Js.split_lines s = [h] -> h = s.
Proof.
  revert h. induction s as [|c r IH]; intros h.
  - now intros [= <-].
  - cbn [Js.split_lines].
    destruct (Ascii.eqb c Js.LF).
    { intros [= _ H]. now destruct (split_lines_nonempty r). }
    destruct r as [|d r']; [now intros [= <-] |].
    destruct (Ascii.eqb c Js.CR && Ascii.eqb d Js.LF).
    { intros [= _ H]. now destruct (split_lines_nonempty r'). }
    destruct (Js.split_lines (String d r')) as [|h0 t0] eqn:E.
    { now destruct (split_lines_nonempty (String d r')). }
    intros [= <- ->]. now rewrite (IH h0 eq_refl).
Qed.

Lemma removelast_cons_ne {A} (x : A) (l : list A) :
  l <> [] -> removelast (x :: l) = x :: removelast l.
Proof. destruct l; [congruence | reflexivity]. Qed.

Lemma last_cons_ne {A} (x : A) (l : list A) :
  l <> [] -> last (x :: l) = last l.
Proof. destruct l; [congruence | reflexivity]. Qed.

Lemma split_lines_app_aux (n : nat) :
  forall a b, String.length a <= n ->
  Js.split_lines (a +:+ b)
  = removelast (Js.split_lines a)
    ++ Js.split_lines (default "" (last (Js.split_lines a)) +:+ b).
Proof.
  induction n as [|n IH]; intros a b Hn.
  { destruct a; [reflexivity | simpl in Hn; lia]. }
  destruct a as [|c r]; [reflexivity |]. simpl in Hn.
  rewrite append_cons.
  destruct (Ascii.eqb c Js.LF) eqn:Hc.
  { cbn [Js.split_lines]. rewrite Hc.
    rewrite removelast_cons_ne, last_cons_ne by apply split_lines_nonempty.
    rewrite (IH r b) by lia. reflexivity. }
  destruct r as [|d r'].
  { replace (Js.split_lines (String c "")) with [String c ""]
      by (cbn [Js.split_lines]; now rewrite Hc).
    reflexivity. }
  destruct (Ascii.eqb c Js.CR && Ascii.eqb d Js.LF) eqn:Hcd.
  { rewrite append_cons. cbn [Js.split_lines]. rewrite Hc, Hcd.
    rewrite removelast_cons_ne, last_cons_ne by apply split_lines_nonempty.
    rewrite (IH r' b) by (simpl in Hn; lia). reflexivity. }
  assert (Ha : Js.split_lines (String c (String d r'))
               = match Js.split_lines (String d r') with
                 | h :: t => String c h :: t
                 | [] => [String c EmptyString]
                 end).
  { cbn [Js.split_lines]. now rewrite Hc, Hcd. }
  assert (Hab : Js.split_lines (String c (String d r' +:+ b))
                = match Js.split_lines (String d r' +:+ b) with
                  | h :: t => String c h :: t
                  | [] => [String c EmptyString]
                  end).
  { rewrite append_cons. cbn [Js.split_lines]. now rewrite Hc, Hcd. }
  rewrite Ha, Hab, (IH (String d r') b) by lia.
  destruct (Js.split_lines (String d r')) as [|h t] eqn:E.
  { now destruct (split_lines_nonempty (String d r')). }
  destruct t as [|h2 t].
  - apply split_lines_single in E. subst h.
    cbn [removelast last default app id].
    rewrite (append_cons c). now rewrite Hab.
  - rewrite !removelast_cons_ne, !last_cons_ne by discriminate. reflexivity.
Qed.

Lemma split_lines_app (a b : string) :
  Js.split_lines (a +:+ b)
  = removelast (Js.split_lines a)
    ++ Js.split_lines (default "" (last (Js.split_lines a)) +:+ b).
Proof. now apply (split_lines_app_aux (String.length a)). Qed.

Lemma take_lines_app (a b : string) :
  take_lines (a +:+ b)
  = ((take_lines a).1 ++ (take_lines ((take_lines a).2 +:+ b)).1,
     (take_lines ((take_lines a).2 +:+ b)).2).
Proof.
  unfold take_lines. cbn [fst snd]. rewrite split_lines_app.
  set (X := removelast (Js.split_lines a)).
  set (Y := Js.split_lines (default "" (last (Js.split_lines a)) +:+ b)).
  assert (HY : Y <> []) by apply split_lines_nonempty.
  f_equal.
  - now apply removelast_app.
  - destruct Y as [|y Y'] using rev_ind; [congruence |].
    now rewrite app_assoc, !last_snoc.
Qed.

Lemma split_lines_terminated (p : string) :
  contains_LF p = false ->
  last (Js.split_lines (p +:+ Fixtures.nl)) = Some "".
Proof.
  induction p as [|c r IH]; [reflexivity |].
  cbn [contains_LF]. intros H. apply orb_false_iff in H as [Hc Hr].
  rewrite append_cons.
  destruct r as [|d r'].
  - change ("" +:+ Fixtures.nl) with (String Js.LF "").
    cbn [Js.split_lines]. rewrite Hc.
    destruct (Ascii.eqb c Js.CR && Ascii.eqb Js.LF Js.LF); reflexivity.
  - assert (Hd : Ascii.eqb d Js.LF = false).
    { cbn [contains_LF] in Hr. now apply orb_false_iff in Hr as [Hd _]. }
    rewrite append_cons, split_lines_cons_other;
      [| exact Hc
       | intros r'' [= -> _]; rewrite Ascii.eqb_refl in Hd; discriminate].
    specialize (IH Hr). rewrite append_cons in IH.
    destruct (Js.split_lines (String d (r' +:+ Fixtures.nl))) as [|h t] eqn:E.
    { discriminate. }
    destruct t as [|h2 t].
    + apply split_lines_single in E. injection IH as ->. discriminate.
    + rewrite last_cons_ne by discriminate.
      now rewrite last_cons_ne in IH by discriminate.
Qed.

Lemma take_lines_terminated (s : string) :
  (take_lines (s +:+ Fixtures.nl)).2 = "".
Proof.
  rewrite take_lines_app. cbn [snd].
  pose proof (take_lines_residual s) as Hr.
  unfold take_lines at 1. cbn [snd].
  now rewrite (split_lines_terminated _ Hr).
Qed.

Lemma take_lines_tail (s tail : string) :
  contains_LF tail = false ->
  take_lines (s +:+ Fixtures.nl +:+ tail)
  = ((take_lines (s +:+ Fixtures.nl)).1, tail).
Proof.
  intros Ht. rewrite <- string_append_assoc, take_lines_app.
  rewrite take_lines_terminated.
  change ("" +:+ tail) with tail. rewrite (take_lines_no_LF tail Ht).
  cbn [fst snd]. now rewrite app_nil_r.
Qed.

End SplitProps.

(** ** The engine over reads and lines *)

Section ReadsProps.
Import Stream Props.

Variable JSON_parse_chunk : string -> option DeepSeekChatCompletionStreamChunk.
Variable JSON_parse : string -> option json.

Local Abbreviation flushToolCallsIfAny := (flushToolCallsIfAny JSON_parse).
Local Abbreviation process_chunk := (process_chunk JSON_parse).
Local Abbreviation process_lines := (process_lines JSON_parse_chunk JSON_parse).
Local Abbreviation gen_loop := (gen_loop JSON_parse_chunk JSON_parse).
Local Abbreviation gen := (gen JSON_parse_chunk JSON_parse).

Lemma process_lines_app (m : ToolCallMap) (l1 l2 : list string) :
  process_lines m (l1 ++ l2)
  = let '(o1, m1, r1) := process_lines m l1 in
    if r1 then (o1, m1, true)
    else let '(o2, m2, r2) := process_lines m1 l2 in (o1 ++ o2, m2, r2).
Proof.
  revert m. induction l1 as [|l l1 IH]; intros m.
  - cbn [app Stream.process_lines]. now destruct (process_lines m l2) as [[o2 m2] r2].
  - cbn [app Stream.process_lines].
    destruct (line_data l) as [d|]; [| apply IH].
    destruct (String.eqb d ""); [apply IH |].
    destruct (String.eqb d "[DONE]"); [reflexivity |].
    destruct (JSON_parse_chunk d) as [chunk|]; [| apply IH].
    destruct (Stream.process_chunk JSON_parse m chunk) as [out m1].
    rewrite IH.
    destruct (process_lines m1 l1) as [[o1 m1'] r1].
    destruct r1; [reflexivity |].
    destruct (process_lines m1' l2) as [[o2 m2] r2].
    now rewrite app_assoc.
Qed.

Lemma concat_cons (v : string) (reads : list string) :
  String.concat "" (v :: reads) = v +:+ String.concat "" reads.
Proof.
  destruct reads as [|w rs]; [| reflexivity].
  cbn [String.concat]. now rewrite string_append_empty_r.
Qed.

Lemma gen_loop_single (buffer v : string) (m : ToolCallMap) :
  gen_loop [v] buffer m
  = let '(out, m', returned) :=
      process_lines m (take_lines (buffer +:+ v)).1 in
    if returned then out else out ++ flushToolCallsIfAny m'.
Proof.
  cbn [Stream.gen_loop].
  pose proof (take_lines_residual (buffer +:+ v)) as Hr.
  destruct (take_lines (buffer +:+ v)) as [lines b'].
  cbn [fst snd] in *.
  destruct (process_lines m lines) as [[out m'] returned].
  destruct returned; [reflexivity |].
  now rewrite (take_lines_no_LF b' Hr).
Qed.

Lemma gen_loop_cons_concat (reads : list string) :
  forall v buffer m,
    gen_loop (v :: reads) buffer m
    = gen_loop [v +:+ String.concat "" reads] buffer m.
Proof.
  induction reads as [|w rs IH]; intros v buffer m.
  - cbn [String.concat]. now rewrite string_append_empty_r.
  - rewrite gen_loop_single.
    change (gen_loop (v :: w :: rs) buffer m)
      with (let '(lines, buffer') := take_lines (buffer +:+ v) in
            let '(out, m', returned) := process_lines m lines in
            if returned then out else out ++ gen_loop (w :: rs) buffer' m').
    rewrite concat_cons.
    rewrite <- (string_append_assoc buffer v (w +:+ String.concat "" rs)).
    rewrite (take_lines_app (buffer +:+ v) (w +:+ String.concat "" rs)).
    destruct (take_lines (buffer +:+ v)) as [l1 b1]. cbn [fst snd].
    rewrite process_lines_app.
    destruct (process_lines m l1) as [[o1 m1] r1].
    destruct r1; [reflexivity |].
    rewrite IH, gen_loop_single.
    destruct (process_lines m1 (take_lines (b1 +:+ (w +:+ String.concat "" rs))).1)
      as [[o2 m2] r2].
    destruct r2; [reflexivity | now rewrite app_assoc].
Qed.

Lemma gen_loop_concat (reads : list string) (buffer : string)
    (m : ToolCallMap) :
  gen_loop reads buffer m = gen_loop [String.concat "" reads] buffer m.
Proof.
  destruct reads as [|v rs].
  - rewrite gen_loop_single. cbn [String.concat Stream.gen_loop].
    rewrite string_append_empty_r.
    destruct (take_lines buffer) as [lines b']. cbn [fst].
    now destruct (process_lines m lines) as [[out m'] returned].
  - now rewrite gen_loop_cons_concat, concat_cons.
Qed.

(** X1. The chunks yielded do not depend on how the text is cut into
    reads: any sequence of reads yields what the single read of their
    concatenation yields. *)
Theorem reads_boundaries_do_not_matter (reads : list string) :
  gen reads = gen [String.concat "" reads].
Proof. apply gen_loop_concat. Qed.

(** X2. Text after the last line feed is never processed: an
    unterminated last line changes nothing, and a text without any line
    feed yields no chunk at all. *)
Theorem unterminated_tail_dropped (s tail : string) :
  contains_LF tail = false ->
  gen [s +:+ Fixtures.nl +:+ tail] = gen [s +:+ Fixtures.nl]
  /\ gen [tail] = [].
Proof.
  intros Ht. unfold Stream.gen. rewrite !gen_loop_single.
  change ("" +:+ ?x) with x.
  rewrite (take_lines_tail s tail Ht), (take_lines_no_LF tail Ht).
  split; reflexivity.
Qed.

Lemma process_lines_returned (m : ToolCallMap) (lines : list string) (line : string) :
  line ∈ lines -> line_data line = Some "[DONE]" ->
  (process_lines m lines).2 = true.
Proof.
  intros Hin Hd. revert m. induction lines as [|l lines IH]; intros m.
  - now apply elem_of_nil in Hin.
  - apply elem_of_cons in Hin as [<-|Hin].
    + now rewrite (sentinel_flushes JSON_parse_chunk JSON_parse m line lines Hd).
    + cbn [Stream.process_lines].
      destruct (line_data l) as [d|]; [| now apply IH].
      destruct (String.eqb d ""); [now apply IH |].
      destruct (String.eqb d "[DONE]"); [reflexivity |].
      destruct (JSON_parse_chunk d) as [chunk|]; [| now apply IH].
      destruct (Stream.process_chunk JSON_parse m chunk) as [out m1].
      specialize (IH Hin m1).
      now destruct (process_lines m1 lines) as [[o m2] r].
Qed.

(** X3. Once the sentinel line is reached the generator returns: the
    lines after it in the same read are not processed, and neither are the
    later reads. *)
Theorem nothing_after_sentinel
    (m : ToolCallMap) (before after : list string) (done : string) :
  line_data done = Some "[DONE]" ->
  process_lines m (before ++ done :: after) = process_lines m (before ++ [done])
  /\ (process_lines m (before ++ done :: after)).2 = true
  /\ forall buffer v reads,
       done ∈ (take_lines (buffer +:+ v)).1 ->
       gen_loop (v :: reads) buffer m = gen_loop [v] buffer m.
Proof.
  intros Hd. split; [| split].
  - rewrite !process_lines_app.
    destruct (process_lines m before) as [[o1 m1] r1].
    destruct r1; [reflexivity |].
    now rewrite !(sentinel_flushes JSON_parse_chunk JSON_parse m1 done _ Hd).
  - apply (process_lines_returned m _ done); [| exact Hd].
    apply elem_of_app. right. apply elem_of_cons. now left.
  - intros buffer v reads Hin. cbn [Stream.gen_loop].
    destruct (take_lines (buffer +:+ v)) as [lines b']. cbn [fst] in Hin.
    pose proof (process_lines_returned m lines done Hin Hd) as Hr.
    destruct (process_lines m lines) as [[out m'] r]. cbn [snd] in Hr.
    now rewrite Hr.
Qed.

(** X4. A line that is not a data line, or whose payload is empty, is
    ignored: the result is that of the same lines without it. *)
Theorem other_lines_ignored
    (m : ToolCallMap) (before after : list string) (line : string) :
  line_data line = None \/ line_data line = Some "" ->
  process_lines m (before ++ line :: after) = process_lines m (before ++ after).
Proof.
  intros Hl. rewrite !process_lines_app.
  destruct (process_lines m before) as [[o1 m1] r1].
  destruct r1; [reflexivity |].
  cbn [Stream.process_lines]. now destruct Hl as [-> | ->].
Qed.

(** X8. The accumulator is not emptied by a flush: a frame with a finish
    signal followed by the sentinel yields the consolidated tool-call chunk
    twice. *)
Theorem finish_then_sentinel_flushes_twice
    (m : ToolCallMap) (line done data : string) (rest : list string)
    (chunk : DeepSeekChatCompletionStreamChunk) :
  line_data line = Some data -> data <> "" -> data <> "[DONE]" ->
  JSON_parse_chunk data = Some chunk ->
  Js.truthy (finish_signal chunk) = true ->
  line_data done = Some "[DONE]" ->
  let m' := foldl merge_tool_call m (frame_tool_calls chunk) in
  process_lines m (line :: done :: rest)
  = (text_chunks_of (content_delta chunk)
     ++ flushToolCallsIfAny m' ++ flushToolCallsIfAny m', m', true).
Proof.
  intros Hl Hne Hnd Hp Hf Hd m'.
  cbn [Stream.process_lines]. rewrite Hl, Hp.
  apply String.eqb_neq in Hne, Hnd. rewrite Hne, Hnd.
  rewrite process_chunk_shape. fold m'. rewrite Hf, Hd.
  cbn [String.eqb Ascii.eqb Bool.eqb]. now rewrite <- app_assoc.
Qed.

End ReadsProps.

(** ** Invariants of the accumulator *)

Section InvariantProps.
Import Stream Props Invariants.

Lemma Map_set_Forall (P : Z * DeepSeekToolCall -> Prop) (idx : Z)
    (v : DeepSeekToolCall) (m : ToolCallMap) :
  (forall i, P (i, v)) -> Forall P m -> Forall P (Map_set idx v m).
Proof.
  intros Hv. induction 1 as [|[i w] m Hw Hm IH]; simpl.
  - repeat constructor. apply Hv.
  - destruct (Z.eqb i idx); constructor; auto.
Qed.

Lemma merge_tool_call_well_formed (m : ToolCallMap) (tc : ToolCallDelta) :
  well_formed m -> well_formed (merge_tool_call m tc).
Proof.
  intros [Hnd Hn]. unfold merge_tool_call. split.
  - now apply Map_set_NoDup.
  - apply Map_set_Forall; [| exact Hn].
    intros i. unfold named_call. cbn [snd tc_id tc_function fn_name].
    split; repeat apply or_else_nonempty; discriminate.
Qed.

Lemma foldl_merge_well_formed (tcs : list ToolCallDelta) (m : ToolCallMap) :
  well_formed m -> well_formed (foldl merge_tool_call m tcs).
Proof.
  revert m. induction tcs as [|tc tcs IH]; intros m Hm; [exact Hm |].
  simpl. apply IH. now apply merge_tool_call_well_formed.
Qed.

Lemma StronglySorted_strict (l : ToolCallMap) :
  StronglySorted index_le l -> NoDup l.*1 -> StronglySorted index_lt l.
Proof.
  induction 1 as [|x l Hs IH Hx]; intros Hnd; [constructor |].
  cbn [fmap list_fmap] in Hnd. apply NoDup_cons in Hnd as [Hnx Hnd].
  constructor; [now apply IH |].
  rewrite Forall_forall in *. intros y Hy.
  specialize (Hx y Hy). unfold index_le, index_lt in *.
  assert (x.1 <> y.1).
  { intros Heq. apply Hnx. rewrite Heq. apply list_elem_of_fmap. eauto. }
  lia.
Qed.

Variable JSON_parse_chunk : string -> option DeepSeekChatCompletionStreamChunk.
Variable JSON_parse : string -> option json.

Local Abbreviation flushToolCallsIfAny := (flushToolCallsIfAny JSON_parse).
Local Abbreviation process_chunk := (process_chunk JSON_parse).
Local Abbreviation process_lines := (process_lines JSON_parse_chunk JSON_parse).
Local Abbreviation gen_loop := (gen_loop JSON_parse_chunk JSON_parse).
Local Abbreviation gen := (gen JSON_parse_chunk JSON_parse).

Lemma flush_named (m : ToolCallMap) :
  well_formed m -> Forall named_chunk (flushToolCallsIfAny m).
Proof.
  intros [_ Hn]. rewrite flush_as_sorted.
  pose proof (Array_sort_perm compare_index m) as Hp.
  destruct (Array_sort compare_index m) as [|e es]; [constructor |].
  constructor; [| constructor].
  unfold named_chunk, Stream.createGeminiStreamToolCallsChunk,
    model_chunk, chunk_parts.
  cbn [candidates cand_content parts default id].
  rewrite <- Hp in Hn. rewrite !List.Forall_map.
  eapply Forall_impl; [exact Hn |].
  intros [i c] [Hi Hname]. unfold named_part, toolCall_part, functionCall_part.
  cbn [functionCall fc_id fc_name snd] in *.
  split; eexists; (split; [reflexivity | assumption]).
Qed.

Lemma text_chunks_named (content : option string) :
  Forall named_chunk (text_chunks_of content).
Proof.
  unfold text_chunks_of. destruct content as [t|]; [| constructor].
  destruct (String.eqb t ""); repeat constructor.
Qed.

Lemma process_chunk_well_formed (m : ToolCallMap)
    (chunk : DeepSeekChatCompletionStreamChunk) :
  well_formed m ->
  Forall named_chunk (process_chunk m chunk).1
  /\ well_formed (process_chunk m chunk).2.
Proof.
  intros Hm. rewrite process_chunk_shape. cbn [fst snd].
  pose proof (foldl_merge_well_formed (frame_tool_calls chunk) m Hm) as Hm'.
  split; [| exact Hm'].
  apply Forall_app. split; [apply text_chunks_named |].
  destruct (Js.truthy (finish_signal chunk)); [now apply flush_named | constructor].
Qed.

Lemma process_lines_well_formed (lines : list string) (m : ToolCallMap) :
  well_formed m ->
  Forall named_chunk (process_lines m lines).1.1
  /\ well_formed (process_lines m lines).1.2.
Proof.
  revert m. induction lines as [|l lines IH]; intros m Hm.
  - split; [constructor | exact Hm].
  - cbn [Stream.process_lines].
    destruct (line_data l) as [d|]; [| now apply IH].
    destruct (String.eqb d ""); [now apply IH |].
    destruct (String.eqb d "[DONE]").
    { split; [now apply flush_named | exact Hm]. }
    destruct (JSON_parse_chunk d) as [chunk|]; [| now apply IH].
    destruct (process_chunk_well_formed m chunk Hm) as [Ho Hm1].
    destruct (Stream.process_chunk JSON_parse m chunk) as [out m1].
    cbn [fst snd] in *.
    destruct (IH m1 Hm1) as [Ho' Hm2].
    destruct (process_lines m1 lines) as [[o m2] r]. cbn [fst snd] in *.
    split; [apply Forall_app; auto | exact Hm2].
Qed.

Lemma gen_loop_named (reads : list string) (buffer : string) (m : ToolCallMap) :
  well_formed m -> Forall named_chunk (gen_loop reads buffer m).
Proof.
  revert buffer m. induction reads as [|v reads IH]; intros buffer m Hm;
    cbn [Stream.gen_loop].
  - destruct (take_lines buffer) as [lines b'].
    destruct (process_lines_well_formed lines m Hm) as [Ho Hm'].
    destruct (process_lines m lines) as [[out m'] r]. cbn [fst snd] in *.
    destruct r; [exact Ho |]. apply Forall_app. split; [exact Ho |].
    now apply flush_named.
  - destruct (take_lines (buffer +:+ v)) as [lines b'].
    destruct (process_lines_well_formed lines m Hm) as [Ho Hm'].
    destruct (process_lines m lines) as [[out m'] r]. cbn [fst snd] in *.
    destruct r; [exact Ho |]. apply Forall_app. split; [exact Ho | now apply IH].
Qed.

(** X5. Every function-call part the generator yields carries a
    non-empty id and a non-empty name, whatever the frames hold. *)
Theorem emitted_tool_calls_named (reads : list string) :
  Forall named_chunk (gen reads).
Proof.
  apply gen_loop_named. split; [apply NoDup_nil_2 | constructor].
Qed.

(** X6. In every accumulator reached from the empty one the indices are
    pairwise distinct, so a flush lists the calls in strictly ascending
    index order, one per accumulated index. *)
Theorem reachable_accumulator_distinct (lines : list string) :
  let m := (process_lines [] lines).1.2 in
  NoDup m.*1
  /\ StronglySorted index_lt (Array_sort compare_index m)
  /\ length (sorted_calls m) = length m.
Proof.
  intros m.
  assert (Hw : well_formed m).
  { apply (process_lines_well_formed lines []).
    split; [apply NoDup_nil_2 | constructor]. }
  destruct Hw as [Hnd _]. split; [exact Hnd |]. split.
  - apply StronglySorted_strict; [apply Array_sort_sorted |].
    now rewrite (Array_sort_perm compare_index m).
  - unfold sorted_calls. now rewrite length_map, (Array_sort_perm compare_index m).
Qed.

Lemma process_lines_arguments (lines : list string) (m : ToolCallMap)
    (j : Z) (e : DeepSeekToolCall) :
  Map_get j m = Some e ->
  exists e' suffix,
    Map_get j (process_lines m lines).1.2 = Some e'
    /\ fn_arguments (tc_function e')
       = fn_arguments (tc_function e) +:+ suffix.
Proof.
  revert m e. induction lines as [|l lines IH]; intros m e He.
  - exists e, "". split; [exact He | now rewrite string_append_empty_r].
  - cbn [Stream.process_lines].
    destruct (line_data l) as [d|]; [| now apply IH].
    destruct (String.eqb d ""); [now apply IH |].
    destruct (String.eqb d "[DONE]").
    { exists e, "". split; [exact He | now rewrite string_append_empty_r]. }
    destruct (JSON_parse_chunk d) as [chunk|]; [| now apply IH].
    pose proof (process_chunk_shape JSON_parse m chunk) as Hs. cbn zeta in Hs.
    destruct (Stream.process_chunk JSON_parse m chunk) as [out m1].
    injection Hs as _ ->.
    destruct (arguments_append_only (frame_tool_calls chunk) m j e He)
      as (e1 & s1 & H1 & Ha1).
    destruct (IH _ _ H1) as (e2 & s2 & H2 & Ha2).
    destruct (process_lines _ lines) as [[o m2] r]. cbn [fst snd] in *.
    exists e2, (s1 +:+ s2). split; [exact H2 |].
    now rewrite Ha2, Ha1, string_append_assoc.
Qed.

(** X7. Processing lines never removes an index from the accumulator and
    never shortens its arguments text: the text afterwards is the text
    before followed by a suffix. *)
Theorem accumulator_never_shrinks (lines : list string) (m : ToolCallMap)
    (j : Z) (e : DeepSeekToolCall) :
  Map_get j m = Some e ->
  exists e' suffix,
    Map_get j (process_lines m lines).1.2 = Some e'
    /\ fn_arguments (tc_function e')
       = fn_arguments (tc_function e) +:+ suffix.
Proof. apply process_lines_arguments. Qed.

End InvariantProps.

(** ** Closed instances *)

(** X2, on the frame hello sent twice, the second time without its line
    feed. *)
Lemma unterminated_tail_dropped_example :
  Stream.gen Fixtures.JSON_parse_chunk Fixtures.JSON_parse
    [Fixtures.hello_line +:+ Fixtures.nl +:+ Fixtures.hello_line]
  = Stream.gen Fixtures.JSON_parse_chunk Fixtures.JSON_parse
      [Fixtures.hello_line +:+ Fixtures.nl]
  /\ Stream.gen Fixtures.JSON_parse_chunk Fixtures.JSON_parse
       [Fixtures.hello_line] = [].
Proof.
  exact (unterminated_tail_dropped Fixtures.JSON_parse_chunk Fixtures.JSON_parse
           Fixtures.hello_line Fixtures.hello_line eq_refl).
Defined.

(** X3, on a frame that follows the sentinel. *)
Lemma nothing_after_sentinel_example :
  Stream.process_lines Fixtures.JSON_parse_chunk Fixtures.JSON_parse []
    ([Fixtures.hello_line] ++ "data: [DONE]" :: [Fixtures.hello_line])
  = Stream.process_lines Fixtures.JSON_parse_chunk Fixtures.JSON_parse []
      ([Fixtures.hello_line] ++ ["data: [DONE]"]).
Proof.
  exact (proj1 (nothing_after_sentinel Fixtures.JSON_parse_chunk
                  Fixtures.JSON_parse [] [Fixtures.hello_line] [Fixtures.hello_line]
                  "data: [DONE]" eq_refl)).
Defined.

(** X4, on a comment line between two frames. *)
Lemma other_lines_ignored_example :
  Stream.process_lines Fixtures.JSON_parse_chunk Fixtures.JSON_parse []
    ([Fixtures.hello_line] ++ ": keep-alive" :: [Fixtures.hello_line])
  = Stream.process_lines Fixtures.JSON_parse_chunk Fixtures.JSON_parse []
      ([Fixtures.hello_line] ++ [Fixtures.hello_line]).
Proof.
  exact (other_lines_ignored Fixtures.JSON_parse_chunk Fixtures.JSON_parse
           [] [Fixtures.hello_line] [Fixtures.hello_line] ": keep-alive"
           (or_introl eq_refl)).
Defined.

(** X7, on the accumulator that holds one call at index 0. *)
Lemma accumulator_never_shrinks_example :
  exists e' suffix,
    Stream.Map_get 0
      (Stream.process_lines Fixtures.JSON_parse_chunk Fixtures.JSON_parse
         Examples.one_call [Fixtures.call0_line; Fixtures.call1_line]).1.2 = Some e'
    /\ fn_arguments (tc_function e') = "{" +:+ suffix.
Proof.
  exact (accumulator_never_shrinks Fixtures.JSON_parse_chunk Fixtures.JSON_parse
           [Fixtures.call0_line; Fixtures.call1_line] Examples.one_call 0
           {| tc_id := "a";
              tc_function := {| fn_name := "f"; fn_arguments := "{" |} |}
           eq_refl).
Defined.

(** X8, on the frame call0, which carries a finish signal, followed by the
    sentinel. *)
Lemma finish_then_sentinel_flushes_twice_example :
  let call :=
    {| tc_id := "a";
       tc_function := {| fn_name := "f"; fn_arguments := "{}" |} |} in
  let flushed :=
    Stream.createGeminiStreamToolCallsChunk Fixtures.JSON_parse [call] in
  Stream.process_lines Fixtures.JSON_parse_chunk Fixtures.JSON_parse []
    [Fixtures.call0_line; "data: [DONE]"]
  = ([flushed; flushed], [(0%Z, call)], true).
Proof.
  exact (finish_then_sentinel_flushes_twice Fixtures.JSON_parse_chunk
           Fixtures.JSON_parse [] Fixtures.call0_line "data: [DONE]" Fixtures.call0_payload []
           (Fixtures.frame None
              (Some [Fixtures.tool_delta 0 (Some "a") (Some "f") (Some "{}")])
              (Some "tool_calls"))
           eq_refl ltac:(discriminate) ltac:(discriminate) eq_refl eq_refl
           eq_refl).
Defined.

(** ** URL joining *)

Section UrlProps.
Import Url.

Lemma all_slashes_app (a b : string) :
  all_slashes (a +:+ b) = all_slashes a && all_slashes b.
Proof.
  induction a as [|c a IH]; [reflexivity |].
  rewrite append_cons. cbn [all_slashes]. now rewrite IH, andb_assoc.
Qed.

Lemma strip_trailing_slashes_app (a b : string) :
  all_slashes b = true ->
  strip_trailing_slashes (a +:+ b) = strip_trailing_slashes a.
Proof.
  intros Hb. induction a as [|c a IH].
  - change ("" +:+ b) with b. destruct b as [|d b]; [reflexivity |].
    cbn [strip_trailing_slashes]. now rewrite Hb.
  - rewrite append_cons. cbn [strip_trailing_slashes all_slashes].
    now rewrite all_slashes_app, Hb, andb_true_r, IH.
Qed.

Lemma strip_leading_slashes_app (a b : string) :
  all_slashes a = true ->
  strip_leading_slashes (a +:+ b) = strip_leading_slashes b.
Proof.
  induction a as [|c a IH]; [reflexivity |].
  cbn [all_slashes]. intros H. apply andb_true_iff in H as [Hc Ha].
  rewrite append_cons. cbn [strip_leading_slashes]. rewrite Hc. auto.
Qed.

Lemma strip_trailing_no_slash (s : string) :
  ends_with_slash (strip_trailing_slashes s) = false.
Proof.
  induction s as [|c r IH]; [reflexivity |].
  cbn [strip_trailing_slashes].
  destruct (all_slashes (String c r)) eqn:Ha; [reflexivity |].
  cbn [ends_with_slash].
  destruct (strip_trailing_slashes r) as [|d r'] eqn:E; [| exact IH].
  cbn [all_slashes] in Ha.
  destruct (Ascii.eqb c slash); [| reflexivity].
  simpl in Ha.
  assert (Hr : all_slashes r = true).
  { clear -E. destruct r as [|x r]; [reflexivity |].
    cbn [strip_trailing_slashes] in E.
    destruct (all_slashes (String x r)); [reflexivity | discriminate]. }
  congruence.
Qed.

Lemma strip_leading_no_slash (s : string) :
  Js.startsWith (strip_leading_slashes s) "/" = false.
Proof.
  induction s as [|c r IH]; [reflexivity |].
  cbn [strip_leading_slashes].
  destruct (Ascii.eqb c slash) eqn:Hc; [exact IH |].
  cbn [Js.startsWith].
  destruct (Ascii.eqb_spec "/"%char c) as [<-|Hn];
    [vm_compute in Hc; discriminate | reflexivity].
Qed.

(** X9. Slashes at the joint do not matter: any run of slashes at the end
    of the base or at the start of the path gives the same URL, in which
    the base part does not end with a slash and the path part does not start
    with one. *)
Theorem joinUrl_slashes (base path slashes : string) :
  all_slashes slashes = true ->
  joinUrl (base +:+ slashes) path = joinUrl base path
  /\ joinUrl base (slashes +:+ path) = joinUrl base path
  /\ ends_with_slash (strip_trailing_slashes base) = false
  /\ Js.startsWith (strip_leading_slashes path) "/" = false.
Proof.
  intros Hs. unfold joinUrl.
  rewrite (strip_trailing_slashes_app base slashes Hs).
  rewrite (strip_leading_slashes_app slashes path Hs).
  repeat split; [apply strip_trailing_no_slash | apply strip_leading_no_slash].
Qed.

End UrlProps.

(** ** Credentials, models and tools *)

Section ResolutionProps.
Import Resolver Translator Facade Props Vocabulary.

(** X10. When the provider is enabled by detection (no selector), the
    key lookup succeeds with the DeepSeek key: the missing-credential error
    can arise only under an explicit selector. *)
Theorem auto_detect_has_credential (env : Env) :
  selector_unset env -> isDeepSeekEnabled env = true ->
  exists key,
    env !! "DEEPSEEK_API_KEY" = Some key /\ key <> ""
    /\ getDeepSeekApiKey env = inr key.
Proof.
  intros Hu He. apply provider_empty_iff in Hu.
  unfold isDeepSeekEnabled in He. unfold getDeepSeekApiKey.
  rewrite Hu in *. cbn [String.eqb negb] in *.
  apply andb_true_iff in He as [Hk _]. rewrite Hk. cbn [negb].
  apply truthy_Some_iff in Hk as (v & Hv & Hne).
  exists v. rewrite Hv. auto.
Qed.

Lemma getDeepSeekApiKey_cases (env : Env) :
  match getDeepSeekApiKey env with
  | inr key => env !! key_variable env = Some key /\ key <> ""
  | inl err =>
      Js.truthy (env !! key_variable env) = false /\ code err = Some 401%Z
  end.
Proof.
  unfold getDeepSeekApiKey, key_variable.
  destruct (String.eqb (getProviderFromEnv env) "openai_compatible");
    match goal with |- context [Js.truthy ?o] => destruct (Js.truthy o) eqn:Ht end;
    cbn [negb code]; auto;
    apply truthy_Some_iff in Ht as (v & -> & Hne); auto.
Qed.

Lemma startsWith_nonempty (s p : string) :
  p <> "" -> Js.startsWith s p = true -> s <> "".
Proof. destruct p; [congruence |]. destruct s; [discriminate | discriminate]. Qed.

Lemma resolve_model_cases (envModel requestModel : option string) (d : string) :
  d <> "" ->
  let res :=
    if Js.truthy envModel then default "" envModel
    else if Js.truthy requestModel
            && Js.startsWith (default "" requestModel) "deepseek-"
    then default "" requestModel
    else d in
  res <> ""
  /\ (forall v, envModel = Some v -> v <> "" -> res = v)
  /\ (Js.truthy envModel = false ->
      (forall r, requestModel = Some r -> Js.startsWith r "deepseek-" = true ->
         res = r)
      /\ (forall r, requestModel = Some r ->
            Js.startsWith r "deepseek-" = false -> res = d)
      /\ (requestModel = None -> res = d)).
Proof.
  intros Hd res. subst res. split; [| split].
  - destruct (Js.truthy envModel) eqn:Ht.
    + apply truthy_Some_iff in Ht as (v & -> & Hne). exact Hne.
    + destruct (Js.truthy requestModel) eqn:Hr; cbn [andb]; [| exact Hd].
      apply truthy_Some_iff in Hr as (r & -> & Hne). cbn [default id].
      destruct (Js.startsWith r "deepseek-"); [exact Hne | exact Hd].
  - intros v -> Hne.
    assert (Ht : Js.truthy (Some v) = true)
      by (apply truthy_Some_iff; eauto).
    now rewrite Ht.
  - intros Ht. rewrite Ht. split; [| split].
    + intros r -> Hs.
      assert (Hr : Js.truthy (Some r) = true).
      { apply truthy_Some_iff. exists r. split; [reflexivity |].
        now apply (startsWith_nonempty r "deepseek-"). }
      rewrite Hr. cbn [default id andb]. now rewrite Hs.
    + intros r -> Hs. cbn [default id]. now rewrite Hs, andb_false_r.
    + intros ->. reflexivity.
Qed.

(** X13. The resolved model is never empty; a non-empty override in the
    environment wins; without one the request model is used only when it
    starts with deepseek-, and otherwise the default of the variant. *)
Theorem resolveDeepSeekModel_spec (env : Env) (requestModel : option string) :
  resolveDeepSeekModel env requestModel <> ""
  /\ (forall v, env !! model_variable env = Some v -> v <> "" ->
      resolveDeepSeekModel env requestModel = v)
  /\ (Js.truthy (env !! model_variable env) = false ->
      (forall r, requestModel = Some r -> Js.startsWith r "deepseek-" = true ->
         resolveDeepSeekModel env requestModel = r)
      /\ (forall r, requestModel = Some r -> Js.startsWith r "deepseek-" = false ->
            resolveDeepSeekModel env requestModel = default_model env)
      /\ (requestModel = None ->
            resolveDeepSeekModel env requestModel = default_model env)).
Proof.
  unfold resolveDeepSeekModel, model_variable, default_model.
  destruct (String.eqb (getProviderFromEnv env) "openai_compatible");
    apply resolve_model_cases; discriminate.
Qed.

Variable JSON_stringify_part : Part -> string.
Variable JSON_stringify : json -> string.
Variable random_suffix : nat -> string.
Variable Number_ : string -> float.

(** X11. Both entry points fail on the same environments with the same
    error, before anything is sent: the not-enabled error when the
    predicate is false, the 401 error when the key of the active variant is
    absent or empty; otherwise both build a body. *)
Theorem entry_points_fail_alike (env : Env) (k : nat)
    (request : GenerateContentParameters) (userPromptId : string) :
  match
    generateContent_body JSON_stringify_part JSON_stringify random_suffix
      Number_ env k request userPromptId,
    generateContentStream_body JSON_stringify_part JSON_stringify random_suffix
      env k request userPromptId
  with
  | inl e1, inl e2 =>
      e1 = e2
      /\ ((isDeepSeekEnabled env = false /\ e1 = not_enabled_error)
          \/ (isDeepSeekEnabled env = true
              /\ Js.truthy (env !! key_variable env) = false
              /\ code e1 = Some 401%Z))
  | inr b1, inr b2 =>
      isDeepSeekEnabled env = true
      /\ (exists key, env !! key_variable env = Some key /\ key <> "")
  | _, _ => False
  end.
Proof.
  unfold generateContent_body, generateContentStream_body.
  destruct (isDeepSeekEnabled env); cbn [negb]; [| auto].
  pose proof (getDeepSeekApiKey_cases env) as Hk.
  destruct (getDeepSeekApiKey env) as [err|key].
  - split; [reflexivity |]. right. tauto.
  - destruct (geminiRequestToDeepSeekMessages _ _ _ _ _) as [ms ts].
    split; [reflexivity | eauto].
Qed.

Lemma declaration_to_tool_name (fn : FunctionDeclaration) (t : DeepSeekTool) :
  declaration_to_tool fn = Some t ->
  fd_name fn = Some (tool_name t) /\ tool_name t <> ""
  /\ tool_description t = fd_description fn.
Proof.
  unfold declaration_to_tool.
  destruct (Js.truthy (fd_name fn)) eqn:Ht; cbn [negb]; [| discriminate].
  apply truthy_Some_iff in Ht as (v & Hv & Hne). rewrite Hv.
  intros [= <-]. auto.
Qed.

Lemma declaration_to_tool_None (fn : FunctionDeclaration) :
  declaration_to_tool fn = None <-> Js.truthy (fd_name fn) = false.
Proof.
  unfold declaration_to_tool.
  destruct (Js.truthy (fd_name fn)); cbn [negb]; split; congruence.
Qed.

Lemma omap_cons {A B : Type} (f : A -> option B) (x : A) (l : list A) :
  omap f (x :: l)
  = match f x with Some y => y :: omap f l | None => omap f l end.
Proof. reflexivity. Qed.

Lemma omap_tool_names (fds : list FunctionDeclaration) :
  map tool_name (omap declaration_to_tool fds)
  = omap (fun fn => if Js.truthy (fd_name fn) then fd_name fn else None) fds.
Proof.
  induction fds as [|fn fds IH]; [reflexivity |]. rewrite !omap_cons.
  destruct (declaration_to_tool fn) as [t|] eqn:E.
  - apply declaration_to_tool_name in E as (Hn & Hne & _).
    assert (Ht : Js.truthy (fd_name fn) = true)
      by (apply truthy_Some_iff; eauto).
    rewrite Ht, Hn. cbn [map]. now rewrite IH.
  - apply declaration_to_tool_None in E. now rewrite E.
Qed.

(** X14. The converted tools are the declarations that have a non-empty
    name, in order and with their names; the result is never an empty list
    but absent instead. *)
Theorem convertFunctionDeclarations_spec
    (functionDeclarations : option (list FunctionDeclaration)) :
  match convertFunctionDeclarationsToDeepSeekTools functionDeclarations with
  | Some ts =>
      ts <> [] /\ map tool_name ts = declared_names functionDeclarations
      /\ Forall (fun t => tool_name t <> "") ts
  | None => declared_names functionDeclarations = []
  end.
Proof.
  unfold declared_names, convertFunctionDeclarationsToDeepSeekTools.
  destruct functionDeclarations as [[|fn fds]|]; try reflexivity.
  cbn [default id]. rewrite <- omap_tool_names.
  destruct (omap declaration_to_tool (fn :: fds)) as [|t ts] eqn:E;
    [reflexivity |].
  split; [discriminate |]. split; [reflexivity |].
  rewrite Forall_forall. intros t' Ht'. rewrite <- E in Ht'.
  apply list_elem_of_omap in Ht' as (fn' & _ & Hfn').
  now apply declaration_to_tool_name in Hfn'.
Qed.

Local Abbreviation translate_content :=
  (translate_content JSON_stringify_part JSON_stringify random_suffix).
Local Abbreviation translate_contents :=
  (translate_contents JSON_stringify_part JSON_stringify random_suffix).
Local Abbreviation functionResponse_messages :=
  (functionResponse_messages JSON_stringify random_suffix).
Local Abbreviation geminiRequestToDeepSeekMessages :=
  (geminiRequestToDeepSeekMessages JSON_stringify_part JSON_stringify
     random_suffix).

Lemma convert_not_empty_list (fds : option (list FunctionDeclaration)) :
  convertFunctionDeclarationsToDeepSeekTools fds <> Some [].
Proof.
  unfold convertFunctionDeclarationsToDeepSeekTools.
  destruct fds as [[|fn fds]|]; try discriminate.
  destruct (omap declaration_to_tool (fn :: fds)); discriminate.
Qed.

Lemma resolveDeepSeekModel_nonempty (env : Env) (requestModel : option string) :
  resolveDeepSeekModel env requestModel <> "".
Proof.
  unfold resolveDeepSeekModel.
  destruct (String.eqb (getProviderFromEnv env) "openai_compatible");
    apply resolve_model_cases; discriminate.
Qed.

Lemma request_tools (k : nat) (request : GenerateContentParameters) :
  (geminiRequestToDeepSeekMessages k request).2 <> Some [].
Proof.
  unfold Translator.geminiRequestToDeepSeekMessages. cbn [snd].
  apply convert_not_empty_list.
Qed.

(** X12. In the body of either entry point tool_choice is auto exactly
    when tools are present, tools are never an empty list, user is the
    prompt id, the model is not empty and the messages are those of the
    request translator. *)
Theorem request_body_shape (env : Env) (k : nat)
    (request : GenerateContentParameters) (userPromptId : string)
    (body : RequestBody) :
  generateContent_body JSON_stringify_part JSON_stringify random_suffix Number_
    env k request userPromptId = inr body
  \/ generateContentStream_body JSON_stringify_part JSON_stringify random_suffix
       env k request userPromptId = inr body ->
  (body_tool_choice body = Some "auto" <-> is_Some (body_tools body))
  /\ (body_tool_choice body = None <-> body_tools body = None)
  /\ body_tools body <> Some []
  /\ body_user body = userPromptId
  /\ body_model body <> ""
  /\ body_messages body = (geminiRequestToDeepSeekMessages k request).1.
Proof.
  unfold generateContent_body, generateContentStream_body.
  destruct (isDeepSeekEnabled env); cbn [negb]; [| intros [H|H]; discriminate].
  destruct (getDeepSeekApiKey env); [intros [H|H]; discriminate |].
  pose proof (request_tools k request) as Ht.
  destruct (geminiRequestToDeepSeekMessages k request) as [ms ts].
  cbn [fst snd] in *.
  intros [[= <-]|[= <-]]; cbn [body_tool_choice body_tools body_user body_model
                               body_messages];
    (split; [destruct ts; split; [eauto | reflexivity | discriminate
                                  | intros [x Hx]; discriminate] |]);
    (split; [destruct ts; split; congruence |]);
    (split; [exact Ht |]); (split; [reflexivity |]);
    (split; [apply resolveDeepSeekModel_nonempty | reflexivity]).
Qed.

Lemma functionResponse_messages_tools (frs : list FunctionResponse) (k : nat) :
  Forall is_tool_message (functionResponse_messages k frs).1.
Proof.
  apply (Forall2_tool_messages JSON_stringify random_suffix frs).
  apply functionResponse_messages_spec.
Qed.

Lemma translate_content_no_system (k : nat) (c : Content) :
  Forall (fun m => ~ is_system_message m) (translate_content k c).1.
Proof.
  unfold Translator.translate_content.
  destruct (bool_decide (role c = Some "user")).
  - destruct (functionResponses (parts c)) as [|fr frs] eqn:E.
    + repeat constructor. intros [x Hx]. discriminate.
    + eapply Forall_impl; [apply functionResponse_messages_tools |].
      intros m (x & i & ->) [y Hy]. discriminate.
  - destruct (bool_decide (role c = Some "model")).
    + destruct (negb _); repeat constructor. intros [x Hx]. discriminate.
    + repeat constructor. intros [x Hx]. discriminate.
Qed.

Lemma translate_contents_no_system (cs : list Content) (k : nat) :
  Forall (fun m => ~ is_system_message m) (translate_contents k cs).1.
Proof.
  revert k. induction cs as [|c cs IH]; intros k; [constructor |].
  cbn [Translator.translate_contents].
  pose proof (translate_content_no_system k c) as Hc.
  destruct (translate_content k c) as [ms k1]. specialize (IH k1).
  destruct (translate_contents k1 cs) as [ms' k2]. cbn [fst] in *.
  apply Forall_app. auto.
Qed.

(** X15. A system message can only be the first message: it is there
    exactly when the normalized system instruction is a non-empty text, and
    no later message is a system message. *)
Theorem system_message_only_first (k : nat) (request : GenerateContentParameters) :
  let ms := (geminiRequestToDeepSeekMessages k request).1 in
  Forall (fun m => ~ is_system_message m) (tail ms)
  /\ forall t,
       head ms = Some (MsgSystem t)
       <-> normalizeSystemInstruction JSON_stringify_part
             (request_system_instruction request) = Some t /\ t <> "".
Proof.
  intros ms. subst ms.
  unfold Translator.geminiRequestToDeepSeekMessages. cbn [fst].
  fold (request_system_instruction request).
  set (si := normalizeSystemInstruction JSON_stringify_part
               (request_system_instruction request)).
  pose proof (translate_contents_no_system
                (normalizedContents (contents request)) k) as Hn.
  set (body := (translate_contents k (normalizedContents (contents request))).1)
    in *.
  unfold system_messages.
  destruct (Js.truthy si) eqn:Ht.
  - apply truthy_Some_iff in Ht as (v & Hv & Hne). rewrite Hv.
    cbn [default id app tail head]. split; [exact Hn |].
    intros t. split.
    + intros [= <-]. auto.
    + intros [[= <-] _]. reflexivity.
  - cbn [app]. split.
    + destruct body; [constructor | now apply Forall_cons in Hn as [_ Hn]].
    + intros t. split.
      * intros Hh. destruct body as [|m body]; [discriminate |].
        injection Hh as ->. apply Forall_cons in Hn as [Hm _].
        destruct Hm. now exists t.
      * intros [Hs Hne].
        assert (Js.truthy si = true) by (apply truthy_Some_iff; eauto).
        congruence.
Qed.

(** X16. The messages follow the order of the turns: the translation of
    two lists of turns one after the other is the translation of the first
    followed by that of the second. *)
Theorem translation_preserves_order (k : nat) (l1 l2 : list ContentItem) :
  translate_contents k (normalizedContents (ContentsArray (l1 ++ l2)))
  = let '(m1, k1) := translate_contents k (normalizedContents (ContentsArray l1)) in
    let '(m2, k2) := translate_contents k1 (normalizedContents (ContentsArray l2)) in
    (m1 ++ m2, k2).
Proof.
  unfold normalizedContents. rewrite omap_app.
  generalize (omap isContent l2) as cs2. generalize (omap isContent l1) as cs1.
  intros cs1 cs2. revert k. induction cs1 as [|c cs1 IH]; intros k.
  - cbn [app Translator.translate_contents].
    now destruct (translate_contents k cs2).
  - cbn [app Translator.translate_contents].
    destruct (translate_content k c) as [ms k1]. rewrite IH.
    destruct (translate_contents k1 cs1) as [m1 k2].
    destruct (translate_contents k2 cs2) as [m2 k3].
    now rewrite app_assoc.
Qed.

End ResolutionProps.

Section RandomProps.
Import Translator Vocabulary.

Variable JSON_stringify_part : Part -> string.
Variable JSON_stringify : json -> string.

Lemma functionResponse_messages_identified
    (r1 r2 : nat -> string) (frs : list FunctionResponse) (k1 k2 : nat) :
  Forall (fun fr => is_Some (fr_id fr)) frs ->
  (functionResponse_messages JSON_stringify r1 k1 frs).1
  = (functionResponse_messages JSON_stringify r2 k2 frs).1
  /\ (functionResponse_messages JSON_stringify r1 k1 frs).2 = k1.
Proof.
  induction 1 as [|fr frs [i Hi] _ [IH1 IH2]]; [split; reflexivity |].
  cbn [Translator.functionResponse_messages].
  unfold functionResponse_message. rewrite Hi.
  destruct (functionResponse_messages JSON_stringify r1 k1 frs) as [ms1 k1'].
  destruct (functionResponse_messages JSON_stringify r2 k2 frs) as [ms2 k2'].
  cbn [fst snd] in *. subst. split; reflexivity.
Qed.

Lemma translate_content_identified
    (r1 r2 : nat -> string) (c : Content) (k1 k2 : nat) :
  responses_identified c ->
  (translate_content JSON_stringify_part JSON_stringify r1 k1 c).1
  = (translate_content JSON_stringify_part JSON_stringify r2 k2 c).1
  /\ (translate_content JSON_stringify_part JSON_stringify r1 k1 c).2 = k1.
Proof.
  unfold responses_identified, translate_content. intros Hc.
  destruct (bool_decide (role c = Some "user")).
  - destruct (functionResponses (parts c)) as [|fr frs]; [split; reflexivity |].
    now apply functionResponse_messages_identified.
  - destruct (bool_decide (role c = Some "model")); [| split; reflexivity].
    destruct (negb _); split; reflexivity.
Qed.

Lemma translate_contents_identified
    (r1 r2 : nat -> string) (cs : list Content) (k1 k2 : nat) :
  Forall responses_identified cs ->
  (translate_contents JSON_stringify_part JSON_stringify r1 k1 cs).1
  = (translate_contents JSON_stringify_part JSON_stringify r2 k2 cs).1.
Proof.
  intros Hcs. revert k1 k2.
  induction Hcs as [|c cs Hc _ IH]; intros k1 k2; [reflexivity |].
  cbn [Translator.translate_contents].
  destruct (translate_content_identified r1 r2 c k1 k2 Hc) as [H1 H2].
  destruct (translate_content_identified r2 r1 c k2 k1 Hc) as [_ H3].
  destruct (translate_content JSON_stringify_part JSON_stringify r1 k1 c)
    as [ms1 k1'].
  destruct (translate_content JSON_stringify_part JSON_stringify r2 k2 c)
    as [ms2 k2'].
  cbn [fst snd] in *. subst. specialize (IH k1 k2).
  destruct (translate_contents JSON_stringify_part JSON_stringify r1 k1 cs).
  destruct (translate_contents JSON_stringify_part JSON_stringify r2 k2 cs).
  cbn [fst] in *. now subst.
Qed.

(** X17. When every function response of the request carries an
    identifier, the translation does not depend on the random source. *)
Theorem identified_responses_need_no_random
    (r1 r2 : nat -> string) (k1 k2 : nat) (request : GenerateContentParameters) :
  Forall responses_identified (normalizedContents (contents request)) ->
  geminiRequestToDeepSeekMessages JSON_stringify_part JSON_stringify r1 k1 request
  = geminiRequestToDeepSeekMessages JSON_stringify_part JSON_stringify r2 k2
      request.
Proof.
  intros H. unfold geminiRequestToDeepSeekMessages.
  now rewrite (translate_contents_identified r1 r2 _ k1 k2 H).
Qed.

End RandomProps.

(** ** Completion response translator *)

Section CompletionProps.
Import Completion Stream Props.

Variable JSON_parse : string -> option json.
Variable toUpperCase : string -> string.

Lemma toolCall_to_part_stream (tc : DeepSeekToolCall) :
  toolCall_to_part JSON_parse tc = toolCall_part JSON_parse tc.
Proof.
  unfold toolCall_to_part, toolCall_part, functionCall_part, parse_arguments.
  now destruct (String.eqb (fn_arguments (tc_function tc)) "").
Qed.

(** X18. The non-streaming translator builds one candidate whose parts
    are the text part of a non-empty content followed by one function-call
    part per tool call, each converted exactly as the streaming flush
    converts it; a text-only completion has the parts of a stream text
    chunk. *)
Theorem completion_parts_agree_with_stream
    (resp : DeepSeekChatCompletionResponse) :
  let r := deepSeekResponseToGeminiResponse JSON_parse toUpperCase resp in
  response_parts r
  = match message_content resp with
    | Some t => if String.eqb t "" then [] else [text_part t]
    | None => []
    end
    ++ chunk_parts
         (createGeminiStreamToolCallsChunk JSON_parse (message_tool_calls resp))
  /\ length (completion_candidates r) = 1
  /\ (forall t, message_content resp = Some t -> t <> "" ->
      message_tool_calls resp = [] ->
      response_parts r = chunk_parts (createGeminiStreamTextChunk t)).
Proof.
  intros r. subst r.
  unfold deepSeekResponseToGeminiResponse, response_parts, message_content,
    message_tool_calls, first_message, createGeminiStreamToolCallsChunk,
    createGeminiStreamTextChunk, model_chunk, chunk_parts.
  cbn [completion_candidates completion_content candidates cand_content parts
       default id].
  assert (Hm : forall tcs, map (toolCall_to_part JSON_parse) tcs
                           = map (toolCall_part JSON_parse) tcs).
  { intros tcs. apply map_ext. intros tc. apply toolCall_to_part_stream. }
  destruct (resp_choices resp) as [[|choice cs]|];
    cbn [mbind option_bind head fmap option_fmap option_map];
    try (split; [reflexivity | split; [reflexivity |]];
         intros t Ht; discriminate).
  destruct (msg_content (rc_message choice)) as [t|] eqn:Hc;
    destruct (msg_tool_calls (rc_message choice)) as [tcs|] eqn:Ht;
    cbn [Js.truthy default id];
    try destruct (String.eqb_spec t "") as [->|Hne]; cbn [negb app map];
    rewrite ?Hm;
    (split; [reflexivity | split; [reflexivity |]]);
    intros t' [= <-] Hne' Htc; try congruence;
    rewrite ?Htc; reflexivity.
Qed.

End CompletionProps.

(** ** Authentication dialog *)

Section AuthDialogProps.
Import AuthDialog Resolver Props.

Lemma provider_after_insert (env : Env) (v : string) :
  v <> "" ->
  getProviderFromEnv (<["GEMINI_CLI_PROVIDER" := v]> env) = Js.toLowerCase v.
Proof.
  intros Hv. apply provider_of_selector. apply lookup_insert_eq.
Qed.

Lemma isDeepSeekEnabled_other_keys (env env' : Env) :
  env' !! "GEMINI_CLI_PROVIDER" = env !! "GEMINI_CLI_PROVIDER" ->
  env' !! "DEEPSEEK_API_KEY" = env !! "DEEPSEEK_API_KEY" ->
  env' !! "GEMINI_API_KEY" = env !! "GEMINI_API_KEY" ->
  isDeepSeekEnabled env' = isDeepSeekEnabled env.
Proof.
  intros H1 H2 H3. unfold isDeepSeekEnabled, getProviderFromEnv.
  now rewrite H1, H2, H3.
Qed.

(** X19. The selection decides the provider: after the DeepSeek or the
    custom choice the generator is enabled whatever keys are set, after the
    Gemini key choice it is disabled whatever keys are set, after Vertex AI
    detection decides, and Login with Google and compute ADC leave the
    enablement as it was. *)
Theorem selection_decides_enablement (env : Env) :
  isDeepSeekEnabled (select_provider deepseek_api_key env) = true
  /\ isDeepSeekEnabled (select_provider openai_compatible_api_key env) = true
  /\ isDeepSeekEnabled (select_provider gemini_api_key env) = false
  /\ isDeepSeekEnabled (select_provider vertex_ai env)
     = Js.truthy (env !! "DEEPSEEK_API_KEY")
       && negb (Js.truthy (env !! "GEMINI_API_KEY"))
  /\ isDeepSeekEnabled (select_provider login_with_google env)
     = isDeepSeekEnabled env
  /\ isDeepSeekEnabled (select_provider compute_adc env)
     = isDeepSeekEnabled env.
Proof.
  cbn [select_provider]. unfold isDeepSeekEnabled.
  rewrite !provider_after_insert by discriminate.
  assert (Hd : getProviderFromEnv (delete "GEMINI_CLI_PROVIDER" env) = "").
  { apply provider_empty_iff. left. apply lookup_delete_eq. }
  rewrite Hd, !lookup_delete_ne by discriminate.
  repeat split.
Qed.

Lemma findIndex_found {A : Type} (p : A -> bool) (l : list A) (x : A) :
  (0 <= findIndex p l)%Z ->
  l !! Z.to_nat (findIndex p l) = Some x -> p x = true.
Proof.
  induction l as [|y l IH]; cbn [findIndex]; [lia |].
  destruct (p y) eqn:Hy.
  - intros _ [= <-]. exact Hy.
  - destruct (Z.ltb_spec (findIndex p l) 0) as [Hlt|Hge]; [lia |].
    intros _. replace (Z.to_nat (findIndex p l + 1)) with (S (Z.to_nat (findIndex p l)))
      by lia.
    cbn [lookup list_lookup]. now apply IH.
Qed.

Lemma value_is_true (v : AuthSelectionValue) (item : Item) :
  value_is v item = true <-> value item = v.
Proof. unfold value_is. apply bool_decide_eq_true. Qed.

Variable AuthType_of_value : string -> option AuthType.

Lemma initially_selected_not_provider (env : Env) (selectedType : option AuthType)
    (item : Item) :
  initially_selected AuthType_of_value env selectedType item = true ->
  value item <> deepseek_api_key /\ value item <> openai_compatible_api_key.
Proof.
  unfold initially_selected, defaultSelection.
  destruct selectedType as [[]|];
    [| | | | discriminate |];
    try (rewrite value_is_true; intros ->; split; discriminate).
  destruct (defaultAuthType AuthType_of_value env) as [[]|];
    try destruct (Js.truthy (env !! "GEMINI_API_KEY"));
    rewrite value_is_true; intros ->; split; discriminate.
Qed.

Lemma enforced_head (env : Env) (t : AuthType) (item : Item) :
  items env (Some t) !! 0 = Some item ->
  value item <> deepseek_api_key /\ value item <> openai_compatible_api_key.
Proof.
  unfold items, all_items.
  destruct t; destruct (is_true (env !! "CLOUD_SHELL"));
    destruct (is_true (env !! "GEMINI_CLI_USE_COMPUTE_ADC"));
    cbn; intros [= <-]; split; discriminate.
Qed.

(** X20. The item the dialog highlights first is never the DeepSeek item
    nor the custom item. *)
Theorem provider_items_never_preselected
    (env : Env) (enforcedType selectedType : option AuthType) (item : Item) :
  let idx := initialAuthIndex AuthType_of_value env enforcedType selectedType in
  (0 <= idx)%Z ->
  items env enforcedType !! Z.to_nat idx = Some item ->
  value item <> deepseek_api_key /\ value item <> openai_compatible_api_key.
Proof.
  unfold initialAuthIndex. destruct enforcedType as [t|].
  - intros _. apply enforced_head.
  - intros Hge Hl.
    apply (initially_selected_not_provider env selectedType).
    now apply (findIndex_found _ (items env None)).
Qed.

(** X21. Under an enforced type every item still offered selects that
    type. *)
Theorem enforced_items_match_type (env : Env) (t : AuthType) (item : Item) :
  item ∈ items env (Some t) -> authType_of (value item) = t.
Proof.
  unfold items. rewrite list_elem_of_In, filter_In. intros [_ Hk].
  destruct t; cbn [enforced_keeps] in Hk;
    rewrite ?orb_true_iff, ?value_is_true in Hk;
    [| | destruct Hk as [[Hk|Hk]|Hk] | | discriminate];
    now rewrite Hk.
Qed.

End AuthDialogProps.

(** ** Configuration dialog *)

Section ConfigDialogProps.
Import ConfigDialog.

Lemma all_white_trimEnd (s : string) :
  Js.all_white (Js.trimEnd s) = Js.all_white s.
Proof.
  induction s as [|c r IH]; [reflexivity |].
  cbn [Js.trimEnd].
  destruct (Js.all_white (String c r)) eqn:Ha; [reflexivity |].
  cbn [Js.all_white] in *. now rewrite IH.
Qed.

Lemma trimEnd_idem (s : string) : Js.trimEnd (Js.trimEnd s) = Js.trimEnd s.
Proof.
  induction s as [|c r IH]; [reflexivity |].
  cbn [Js.trimEnd].
  destruct (Js.all_white (String c r)) eqn:Ha; [reflexivity |].
  cbn [Js.trimEnd].
  assert (Hb : Js.all_white (String c (Js.trimEnd r)) = false).
  { cbn [Js.all_white] in *. now rewrite all_white_trimEnd. }
  now rewrite Hb, IH.
Qed.

Lemma trimStart_head (s : string) :
  match Js.trimStart s with
  | EmptyString => True
  | String c _ => Js.is_white c = false
  end.
Proof.
  induction s as [|c r IH]; [exact I |].
  cbn [Js.trimStart]. destruct (Js.is_white c) eqn:Hc; [exact IH | exact Hc].
Qed.

Lemma trim_idem (s : string) : Js.trim (Js.trim s) = Js.trim s.
Proof.
  unfold Js.trim. pose proof (trimStart_head s) as Hh.
  destruct (Js.trimStart s) as [|c r]; [reflexivity |].
  assert (Ha : Js.all_white (String c r) = false)
    by (cbn [Js.all_white]; now rewrite Hh).
  assert (He : Js.trimEnd (String c r) = String c (Js.trimEnd r))
    by (cbn [Js.trimEnd]; now rewrite Ha).
  rewrite He. cbn [Js.trimStart]. rewrite Hh, <- He. apply trimEnd_idem.
Qed.

Variable Number_ : string -> float.

Lemma trim_clean (value : string) :
  String.eqb (Js.trim value) "" = false -> clean_text (Js.trim value).
Proof.
  intros H. split; [now apply String.eqb_neq | apply trim_idem].
Qed.

Lemma handle_invariant (ev : Event) (st : DialogState) :
  step_invariant st ->
  step_invariant (handle Number_ ev st).1
  /\ forall r, (handle Number_ ev st).2 = Some r ->
       clean_result r /\ result_scope r = scope st.
Proof.
  unfold step_invariant, handle, handleSubmitText, onSelectScope.
  destruct ev as [v|v]; destruct (step st) eqn:Hs; intros Hi;
    cbn [fst snd step baseUrl defaultModel];
    try (rewrite Hs; split; [exact Hi | discriminate]);
    try (split; [exact I | discriminate]).
  - destruct (String.eqb (Js.trim v) "") eqn:Hv;
      cbn [fst snd step baseUrl defaultModel]; rewrite ?Hs;
      (split; [| discriminate]); [exact I | now apply trim_clean].
  - destruct (String.eqb (Js.trim v) "") eqn:Hv;
      cbn [fst snd step baseUrl defaultModel]; rewrite ?Hs;
      (split; [| discriminate]); [exact Hi |].
    split; [exact Hi | now apply trim_clean].
  - destruct (PrimFloat.is_finite (Number_ (Js.trim v))) eqn:Hf;
      cbn [negb fst snd step baseUrl defaultModel]; rewrite ?Hs.
    + split; [exact Hi |]. intros r [= <-]. unfold clean_result.
      cbn [result_baseUrl result_defaultModel result_temperature result_scope].
      tauto.
    + split; [exact Hi | discriminate].
Qed.

Lemma run_invariant (evs : list Event) (st : DialogState) :
  step_invariant st -> Forall clean_result (run Number_ evs st).2.
Proof.
  revert st. induction evs as [|ev evs IH]; intros st Hi; [constructor |].
  cbn [run]. destruct (handle_invariant ev st Hi) as [H1 H2].
  destruct (handle Number_ ev st) as [st1 r]. cbn [fst snd] in *.
  specialize (IH st1 H1). destruct (run Number_ evs st1) as [st2 rs].
  cbn [snd] in *. destruct r as [x|]; [| exact IH].
  constructor; [apply (H2 x eq_refl) | exact IH].
Qed.

(** X22. Whatever the defaults and whatever the user does, every
    configuration the dialog completes has a base URL and a model that are
    non-empty and trimmed, and a finite temperature. *)
Theorem completed_configuration_is_clean
    (defaultScope : LoadableSettingScope)
    (defaultBaseUrl defaultDefaultModel : string) (defaultTemperature : float)
    (evs : list Event) :
  Forall clean_result
    (run Number_ evs
       (initial_state defaultScope defaultBaseUrl defaultDefaultModel
          defaultTemperature)).2.
Proof. apply run_invariant. exact I. Qed.

End ConfigDialogProps.

(** ** API key credential storage *)

(** The store in memory keeps what it is given. *)
Lemma memory_storage_keeping :
  CredentialStorage.KeepingStorage
    (gmap string CredentialStorage.OAuthCredentials).
Proof.
  split;
    cbn [CredentialStorage.getCredentials CredentialStorage.setCredentials
         CredentialStorage.deleteCredentials CredentialStorage.memory_storage].
  - intros st c st' [= <-]. now rewrite lookup_insert_eq.
  - intros st c st' o name [= <- _] Hne. now rewrite lookup_insert_ne.
  - intros st name st' [= <-]. now rewrite lookup_delete_eq.
  - intros st name st' o other [= <- _] Hne. now rewrite lookup_delete_ne.
Qed.

Section StorageProps.
Import CredentialStorage.

Context {S : Type} `{KeepingStorage S}.

Lemma not_blank_key (apiKey : option string) :
  is_blank apiKey = false ->
  exists k, apiKey = Some k /\ k <> "" /\ Js.trim k <> "".
Proof.
  unfold is_blank. intros Hb. apply orb_false_iff in Hb as [Ht Hs].
  apply negb_false_iff, truthy_Some_iff in Ht as (k & -> & Hne).
  exists k. cbn [default] in Hs. apply String.eqb_neq in Hs. auto.
Qed.

Lemma save_then_load_entry (entry : string) (apiKey : option string) (now : Z)
    (st st' : S) :
  save_entry entry apiKey now st = (st', Resolved tt) ->
  (is_blank apiKey = false -> load_entry entry st' = apiKey)
  /\ (is_blank apiKey = true ->
      (deleteCredentials st entry).2 = Resolved tt ->
      load_entry entry st' = None).
Proof.
  unfold save_entry, load_entry. destruct (is_blank apiKey) eqn:Hb.
  - intros [= <-]. split; [discriminate |]. intros _ Hd.
    destruct (deleteCredentials st entry) as [st1 o] eqn:E. cbn [fst snd] in *.
    subst o. now rewrite (get_after_delete _ _ _ E).
  - intros Hs. split; [| discriminate]. intros _.
    apply not_blank_key in Hb as (k & -> & Hne & _).
    pose proof (get_after_set _ _ _ Hs) as Hg. cbn [serverName] in Hg.
    rewrite Hg. cbn [serverName token accessToken default id].
    assert (Ht : Js.truthy (Some k) = true) by (apply truthy_Some_iff; eauto).
    now rewrite Ht.
Qed.

Lemma save_other_entry (entry other : string) (apiKey : option string)
    (now : Z) (st : S) :
  other <> entry ->
  load_entry other (save_entry entry apiKey now st).1 = load_entry other st.
Proof.
  intros Hne. unfold save_entry, load_entry.
  destruct (is_blank apiKey); cbn [fst].
  - destruct (deleteCredentials st entry) as [st1 o] eqn:E. cbn [fst].
    now rewrite (get_after_delete_other _ _ _ _ other E Hne).
  - match goal with |- context [setCredentials st ?c] =>
      destruct (setCredentials st c) as [st1 o] eqn:E end.
    cbn [fst]. now rewrite (get_after_set_other _ _ _ _ other E Hne).
Qed.

(** X23. On a store that keeps what it is given, a key that is not blank
    is loaded back exactly as it was saved, white space included, and the
    other two entries are untouched. *)
Theorem saved_key_is_loaded_verbatim (apiKey : option string) (now : Z)
    (st st' : S) :
  saveDeepSeekApiKey apiKey now st = (st', Resolved tt) ->
  is_blank apiKey = false ->
  loadDeepSeekApiKey st' = apiKey
  /\ loadApiKey st' = loadApiKey st
  /\ loadOpenAICompatApiKey st' = loadOpenAICompatApiKey st.
Proof.
  intros Hs Hb. split; [| split].
  - now apply (save_then_load_entry _ _ _ _ _ Hs).
  - change st' with ((st', @Resolved unit tt).1). rewrite <- Hs.
    now apply save_other_entry.
  - change st' with ((st', @Resolved unit tt).1). rewrite <- Hs.
    now apply save_other_entry.
Qed.

(** X24. Saving a blank key (absent, empty or white space only) never
    fails and does what clearing does: it deletes the entry, after which
    nothing is loaded. *)
Theorem blank_key_erases (apiKey : option string) (now : Z) (st : S) :
  is_blank apiKey = true ->
  (saveDeepSeekApiKey apiKey now st).2 = Resolved tt
  /\ (saveDeepSeekApiKey apiKey now st).1 = clearDeepSeekApiKey st
  /\ ((deleteCredentials st DEEPSEEK_API_KEY_ENTRY).2 = Resolved tt ->
      loadDeepSeekApiKey (saveDeepSeekApiKey apiKey now st).1 = None).
Proof.
  intros Hb. unfold saveDeepSeekApiKey, clearDeepSeekApiKey, save_entry,
    clear_entry. rewrite Hb. cbn [fst snd]. repeat split.
  intros Hd. unfold loadDeepSeekApiKey, load_entry.
  destruct (deleteCredentials st DEEPSEEK_API_KEY_ENTRY) as [st1 o] eqn:E.
  cbn [fst snd] in *. subst o. now rewrite (get_after_delete _ _ _ E).
Qed.

End StorageProps.

Section InputFilterProps.
Import ConfigDialog.

Lemma keep_chars_all (p : ascii -> bool) (s : string) :
  all_chars p (keep_chars p s) = true.
Proof.
  induction s as [|c r IH]; [reflexivity |]. cbn [keep_chars].
  destruct (p c) eqn:Hc; [| exact IH]. cbn [all_chars]. now rewrite Hc.
Qed.

Lemma keep_chars_preserves (p q : ascii -> bool) (s : string) :
  all_chars q s = true -> all_chars q (keep_chars p s) = true.
Proof.
  induction s as [|c r IH]; [reflexivity |]. cbn [all_chars keep_chars].
  intros H. apply andb_true_iff in H as [Hc Hr].
  destruct (p c); [| now apply IH]. cbn [all_chars]. now rewrite Hc, IH.
Qed.

Lemma keep_chars_id (p : ascii -> bool) (s : string) :
  all_chars p s = true -> keep_chars p s = s.
Proof.
  induction s as [|c r IH]; [reflexivity |]. cbn [all_chars keep_chars].
  intros H. apply andb_true_iff in H as [Hc Hr]. now rewrite Hc, IH.
Qed.

(** X25. The input filter of every step removes all line breaks, and at
    the temperature step keeps only digits, the point and the minus sign;
    filtering a filtered text changes nothing. *)
Theorem inputFilter_spec (st : Step) (text : string) :
  all_chars (fun c => negb (is_line_break c)) (inputFilter st text) = true
  /\ inputFilter st (inputFilter st text) = inputFilter st text
  /\ all_chars is_temperature_char (inputFilter StepTemperature text) = true.
Proof.
  assert (Ht : all_chars is_temperature_char
                 (inputFilter StepTemperature text) = true)
    by (apply keep_chars_preserves, keep_chars_all).
  split; [| split; [| exact Ht]].
  - destruct st; apply keep_chars_all.
  - destruct st; cbn [inputFilter];
      try (apply keep_chars_id, keep_chars_all).
    rewrite (keep_chars_id is_temperature_char) by exact Ht.
    apply keep_chars_id, keep_chars_all.
Qed.

End InputFilterProps.

(** ** Closed instances *)

(** X9, on the default base URL written with two slashes at its end. *)
Lemma joinUrl_slashes_example :
  Url.joinUrl ("https://api.deepseek.com" +:+ "//") "chat/completions"
  = Url.joinUrl "https://api.deepseek.com" "chat/completions"
  /\ Url.joinUrl "https://api.deepseek.com" ("//" +:+ "chat/completions")
     = Url.joinUrl "https://api.deepseek.com" "chat/completions"
  /\ Url.ends_with_slash
       (Url.strip_trailing_slashes "https://api.deepseek.com") = false
  /\ Js.startsWith (Url.strip_leading_slashes "chat/completions") "/" = false.
Proof.
  exact (joinUrl_slashes "https://api.deepseek.com" "chat/completions" "//"
           eq_refl).
Defined.

(** X10, on the environment that holds only the DeepSeek key. *)
Lemma auto_detect_has_credential_example :
  exists key,
    Examples.detected_env !! "DEEPSEEK_API_KEY" = Some key /\ key <> ""
    /\ Resolver.getDeepSeekApiKey Examples.detected_env = inr key.
Proof.
  exact (auto_detect_has_credential Examples.detected_env
           (or_introl eq_refl) eq_refl).
Defined.

(** X12, on the request that answers the tool call call_1. *)
Lemma request_body_shape_example :
  exists body,
    Facade.generateContent_body Fixtures.JSON_stringify_part
      Fixtures.JSON_stringify Fixtures.random_suffix Fixtures.Number_
      Fixtures.compat_env 0 Examples.answer_request "prompt-1" = inr body
    /\ body_user body = "prompt-1"
    /\ body_tools body <> Some []
    /\ body_model body <> "".
Proof.
  destruct (Facade.generateContent_body Fixtures.JSON_stringify_part
              Fixtures.JSON_stringify Fixtures.random_suffix Fixtures.Number_
              Fixtures.compat_env 0 Examples.answer_request "prompt-1")
    as [err|body] eqn:E; [vm_compute in E; discriminate |].
  exists body. split; [reflexivity |].
  destruct (request_body_shape Fixtures.JSON_stringify_part
              Fixtures.JSON_stringify Fixtures.random_suffix Fixtures.Number_
              Fixtures.compat_env 0 Examples.answer_request "prompt-1" body
              (or_introl E)) as (_ & _ & H3 & H4 & H5 & _).
  auto.
Defined.

(** X17, on the same request under two random sources. *)
Lemma identified_responses_need_no_random_example :
  Translator.geminiRequestToDeepSeekMessages Fixtures.JSON_stringify_part
    Fixtures.JSON_stringify Fixtures.random_suffix 0 Examples.answer_request
  = Translator.geminiRequestToDeepSeekMessages Fixtures.JSON_stringify_part
      Fixtures.JSON_stringify Examples.other_random_suffix 7
      Examples.answer_request.
Proof.
  apply (identified_responses_need_no_random Fixtures.JSON_stringify_part
           Fixtures.JSON_stringify Fixtures.random_suffix
           Examples.other_random_suffix 0 7 Examples.answer_request).
  repeat constructor. eexists. reflexivity.
Defined.

(** X20, with nothing enforced, selected or set: Login with Google is
    highlighted. *)
Lemma provider_items_never_preselected_example :
  let item :=
    {| AuthDialog.label := "Login with Google";
       AuthDialog.value := AuthDialog.login_with_google |} in
  AuthDialog.initialAuthIndex Examples.no_AuthType ∅ None None = 0%Z
  /\ AuthDialog.items ∅ None !! 0 = Some item
  /\ AuthDialog.value item <> AuthDialog.deepseek_api_key
  /\ AuthDialog.value item <> AuthDialog.openai_compatible_api_key.
Proof.
  split; [reflexivity |]. split; [reflexivity |].
  exact (provider_items_never_preselected Examples.no_AuthType ∅ None None
           {| AuthDialog.label := "Login with Google";
              AuthDialog.value := AuthDialog.login_with_google |}
           (Z.le_refl 0) eq_refl).
Defined.

(** X21, on the DeepSeek item under the enforced Gemini key type. *)
Lemma enforced_items_match_type_example :
  AuthDialog.authType_of AuthDialog.deepseek_api_key = AuthDialog.USE_GEMINI.
Proof.
  apply (enforced_items_match_type ∅ AuthDialog.USE_GEMINI
           {| AuthDialog.label := "DeepSeek API Key";
              AuthDialog.value := AuthDialog.deepseek_api_key |}).
  apply list_elem_of_In. vm_compute. auto.
Defined.

(** X23, on a key with white space around it saved into the empty store. *)
Lemma saved_key_is_loaded_verbatim_example :
  let st' :=
    <[CredentialStorage.DEEPSEEK_API_KEY_ENTRY := Examples.padded_credentials]>
      (∅ : gmap string CredentialStorage.OAuthCredentials) in
  CredentialStorage.loadDeepSeekApiKey st' = Some Examples.padded_key
  /\ CredentialStorage.loadApiKey st'
     = CredentialStorage.loadApiKey
         (∅ : gmap string CredentialStorage.OAuthCredentials)
  /\ CredentialStorage.loadOpenAICompatApiKey st'
     = CredentialStorage.loadOpenAICompatApiKey
         (∅ : gmap string CredentialStorage.OAuthCredentials).
Proof.
  exact (saved_key_is_loaded_verbatim (H0 := memory_storage_keeping)
           (Some Examples.padded_key) 0 ∅ _ eq_refl eq_refl).
Defined.

(** X24, on a key of white space saved over a stored key. *)
Lemma blank_key_erases_example :
  let st :=
    <[CredentialStorage.DEEPSEEK_API_KEY_ENTRY := Examples.padded_credentials]>
      (∅ : gmap string CredentialStorage.OAuthCredentials) in
  (CredentialStorage.saveDeepSeekApiKey (Some "   ") 0 st).2
  = CredentialStorage.Resolved tt
  /\ (CredentialStorage.saveDeepSeekApiKey (Some "   ") 0 st).1
     = CredentialStorage.clearDeepSeekApiKey st
  /\ (CredentialStorage.loadDeepSeekApiKey st = Some Examples.padded_key
      /\ CredentialStorage.loadDeepSeekApiKey
           (CredentialStorage.saveDeepSeekApiKey (Some "   ") 0 st).1 = None).
Proof.
  destruct (blank_key_erases (H0 := memory_storage_keeping) (Some "   ") 0
              (<[CredentialStorage.DEEPSEEK_API_KEY_ENTRY :=
                   Examples.padded_credentials]>
                 (∅ : gmap string CredentialStorage.OAuthCredentials))
              eq_refl) as (H1 & H2 & H3).
  split; [exact H1 |]. split; [exact H2 |].
  split; [reflexivity | exact (H3 eq_refl)].
Defined.
